(** * ClientFlow AI: a shallow embedding of the data operations

    The development follows the TypeScript sources of the repository:

    - [JS]: the fragment of JavaScript values and string operations the
      sources rely on (truthiness, [||], property access, template
      strings, [toLowerCase], [trim]).
    - [Remote]: the hosted backend and the HTTP API as an environment that
      answers requests; a computation is a function of the history of
      requests issued so far, and it may throw.
    - [Executor]: [executeAutomation] and the per-type handlers of the
      automation executor, in both copies the repository holds.
    - [Analyzer]: [normalizePriority], [normalizeSentiment] and the
      analysis functions of the document analyzer.
    - [Hooks]: the query and mutation functions of the data hooks.
    - [Dashboard]: the priority list of [PriorityClients]. *)

From Stdlib Require Import String Ascii List ZArith Lia Bool Arith.
From Stdlib Require Import Sorted Permutation.
From Stdlib Require DecimalString.
Import ListNotations.
Local Open Scope string_scope.
Set Warnings "-register-all".

(* ===================================================================== *)
(** * JavaScript values *)
(* ===================================================================== *)

Module JS.

(** Values of type [any].  Numbers are the integers a double holds: no
    source path modelled below computes with fractions.  Strings are
    sequences of code units below 256.  An object is the list of its
    own enumerable properties, in insertion order. *)
Inductive value : Type :=
| VUndefined
| VNull
| VBool (b : bool)
| VNum (n : Z)
| VStr (s : string)
| VObj (fields : list (string * value))
| VArr (items : list value).

(** A thrown [Error] object: its [name] and its [message].  What the
    sources throw are [Error]s; what the built-ins and the remote
    clients throw are [Error]s as well. *)
Record exn : Type := mk_exn { exn_name : string; exn_message : string }.

Definition Error (msg : string) : exn := mk_exn "Error" msg.
Definition TypeError (msg : string) : exn := mk_exn "TypeError" msg.

(** ToBoolean. *)
Definition truthy (v : value) : bool :=
  match v with
  | VUndefined | VNull => false
  | VBool b => b
  | VNum n => negb (Z.eqb n 0)
  | VStr s => negb (String.eqb s "")
  | VObj _ | VArr _ => true
  end.

(** [a || b] where [b] has no effect of its own. *)
Definition or_ (a b : value) : value := if truthy a then a else b.

Infix "|||" := or_ (at level 50, left associativity).

(** ** Numbers as strings

    [String(n)] prints the fewest digits that read back as the same
    double, then zeros up to the size of the number, and from [1e21] on
    the exponent form.  Below [2^53] those digits are all the digits of
    the integer. *)

(** The decimal digits of an integer. *)
Definition digits (z : Z) : string :=
  DecimalString.NilZero.string_of_int (Z.to_int z).

(** [x] rounds to the double [a], for [a] from [2^53] on: [x] lies
    within half a gap of [a], the ends counting when the mantissa of
    [a] is even. *)
Definition rounds_to (a x : Z) : bool :=
  let ulp := (2 ^ (Z.log2 a - 52))%Z in
  let mantissa := (a / ulp)%Z in
  let gap :=
    if (x <? a)%Z && (mantissa =? 2 ^ 52)%Z then (ulp / 2)%Z else ulp in
  let twice := (2 * Z.abs (x - a))%Z in
  (twice <? gap)%Z || (Z.even mantissa && (twice =? gap)%Z).

(** The decimal of [k] significant digits that rounds to [a], if any:
    the nearer of the two around [a], the even one of two as near. *)
Definition decimal_of (a : Z) (len k : nat) : option Z :=
  let p := (10 ^ Z.of_nat (len - k))%Z in
  let lo := (a / p * p)%Z in
  let hi := (lo + p)%Z in
  match rounds_to a lo, rounds_to a hi with
  | true, true =>
      if (a - lo <? hi - a)%Z then Some lo
      else if (hi - a <? a - lo)%Z then Some hi
      else if Z.even (lo / p) then Some lo else Some hi
  | true, false => Some lo
  | false, true => Some hi
  | false, false => None
  end.

(** The decimal of the fewest significant digits that rounds to [a]. *)
Fixpoint shortest_from (a : Z) (len k fuel : nat) : Z :=
  match fuel with
  | O => a
  | S fuel' =>
      match decimal_of a len k with
      | Some x => x
      | None => shortest_from a len (S k) fuel'
      end
  end.

Definition shortest (a : Z) : Z :=
  let len := String.length (digits a) in
  shortest_from a len 1 len.

Fixpoint strip_zeros (s : string) : string :=
  match s with
  | EmptyString => EmptyString
  | String c r =>
      match strip_zeros r with
      | EmptyString =>
          if Ascii.eqb c "0"%char then EmptyString else String c EmptyString
      | r' => String c r'
      end
  end.

(** [d.ddde+n]. *)
Definition exponential (x : Z) : string :=
  let s := digits x in
  let e := digits (Z.of_nat (String.length s - 1)) in
  match strip_zeros s with
  | String d EmptyString => String d EmptyString ++ "e+" ++ e
  | String d rest => String d EmptyString ++ "." ++ rest ++ "e+" ++ e
  | EmptyString => s
  end.

(** [String(n)] of a number that is an integer. *)
Definition show_Z (z : Z) : string :=
  let a := Z.abs z in
  let sign := if (z <? 0)%Z then "-" else "" in
  if (a <? 2 ^ 53)%Z then sign ++ digits a
  else
    let x := shortest a in
    if (x <? 10 ^ 21)%Z then sign ++ digits x
    else sign ++ exponential x.

(** [String(v)], also the conversion a template literal applies. *)
Fixpoint to_string (v : value) : string :=
  match v with
  | VUndefined => "undefined"
  | VNull => "null"
  | VBool true => "true"
  | VBool false => "false"
  | VNum n => show_Z n
  | VStr s => s
  | VObj _ => "[object Object]"
  | VArr items =>
      let elem x :=
        match x with
        | VUndefined | VNull => ""
        | _ => to_string x
        end in
      (fix join (l : list value) : string :=
         match l with
         | [] => ""
         | [x] => elem x
         | x :: r => elem x ++ "," ++ join r
         end) items
  end.

(** Own property of an object literal or of a row. *)
Fixpoint lookup (fields : list (string * value)) (k : string) : value :=
  match fields with
  | [] => VUndefined
  | (k', v) :: rest => if String.eqb k' k then v else lookup rest k
  end.

(** [o[k] = v] on a copy: the property keeps its place when it exists
    and is appended otherwise. *)
Fixpoint set (k : string) (v : value) (fields : list (string * value))
  : list (string * value) :=
  match fields with
  | [] => [(k, v)]
  | (k', v') :: rest =>
      if String.eqb k' k then (k, v) :: rest else (k', v') :: set k v rest
  end.

(** [v.k] for the property names the sources read (none of them is a
    member of a built-in prototype): reading from [undefined] or [null]
    throws, a primitive has only its [length]. *)
Definition get (v : value) (k : string) : exn + value :=
  match v with
  | VUndefined =>
      inl (TypeError ("Cannot read properties of undefined (reading '" ++ k ++ "')"))
  | VNull =>
      inl (TypeError ("Cannot read properties of null (reading '" ++ k ++ "')"))
  | VObj fields => inr (lookup fields k)
  | VArr items =>
      inr (if String.eqb k "length" then VNum (Z.of_nat (List.length items))
           else VUndefined)
  | VStr s =>
      inr (if String.eqb k "length" then VNum (Z.of_nat (String.length s))
           else VUndefined)
  | VBool _ | VNum _ => inr VUndefined
  end.

(** [v?.k]. *)
Definition opt_get (v : value) (k : string) : value :=
  match get v k with
  | inl _ => VUndefined
  | inr x => x
  end.

(** [v[0]]. *)
Definition first_item (v : value) : exn + value :=
  match v with
  | VArr items => inr (List.hd VUndefined items)
  | VStr (String c _) => inr (VStr (String c ""))
  | VObj fields => inr (lookup fields "0")
  | _ => get v "0"
  end.

(** [v === "lit"]. *)
Definition is_str (v : value) (lit : string) : bool :=
  match v with
  | VStr s => String.eqb s lit
  | _ => false
  end.

(** [new Error(v).message]. *)
Definition error_of (v : value) : exn :=
  match v with
  | VUndefined => Error ""
  | _ => Error (to_string v)
  end.

(** ** Strings *)

Definition lower_char (c : ascii) : ascii :=
  let n := nat_of_ascii c in
  if ((65 <=? n) && (n <=? 90))%nat
     || ((192 <=? n) && (n <=? 222) && negb (n =? 215))%nat then
    ascii_of_nat (n + 32)
  else c.

Fixpoint toLowerCase (s : string) : string :=
  match s with
  | EmptyString => EmptyString
  | String c r => String (lower_char c) (toLowerCase r)
  end.

(** White space and line terminators among the code units below 256. *)
Definition is_space (c : ascii) : bool :=
  let n := nat_of_ascii c in
  ((9 <=? n) && (n <=? 13) || (n =? 32) || (n =? 160))%nat.

Fixpoint trimStart (s : string) : string :=
  match s with
  | EmptyString => EmptyString
  | String c r => if is_space c then trimStart r else s
  end.

Fixpoint trimEnd (s : string) : string :=
  match s with
  | EmptyString => EmptyString
  | String c r =>
      match trimEnd r with
      | EmptyString => if is_space c then EmptyString else String c EmptyString
      | r' => String c r'
      end
  end.

Definition trim (s : string) : string := trimEnd (trimStart s).

(** [s.replace(/\n/g, "<br>")]. *)
Fixpoint replace_newlines (s : string) : string :=
  match s with
  | EmptyString => EmptyString
  | String c r =>
      if Ascii.eqb c "010"%char then "<br>" ++ replace_newlines r
      else String c (replace_newlines r)
  end.

(** [v.replace(/\n/g, "<br>")] on a value that need not be a string. *)
Definition replace_method (v : value) : exn + string :=
  match v with
  | VStr s => inr (replace_newlines s)
  | VUndefined | VNull =>
      inl (TypeError ("Cannot read properties of " ++ to_string v
                      ++ " (reading 'replace')"))
  | _ => inl (TypeError "replace is not a function")
  end.

End JS.

Import JS.

(* ===================================================================== *)
(** * The remote services *)
(* ===================================================================== *)

Module Remote.

(** A query built on the backend client:
    [from(table).<verb>.eq(..)*.order(..)?.limit(..)?.select()?.single()?]. *)
Inductive db_verb : Type :=
| Select (columns : string)
| Insert (row : value)
| Update (patch : value)
| Delete.

Record db_request : Type := mk_db {
  table : string;
  verb : db_verb;
  filters : list (string * value);       (* .eq(column, value) *)
  order_by : option (string * bool);     (* .order(column, { ascending }) *)
  limit : option Z;                      (* .limit(n) *)
  returning : option string;             (* .select(columns) after a write *)
  single : bool                          (* .single() *)
}.

(** The POST to the chat completion endpoint.  The two long prompt
    literals and the constant temperature are left out of the record. *)
Record http_request : Type := mk_http {
  url : string;
  bearer : string;
  model : string;
  max_tokens : Z;
  user_content : string
}.

(** What leaves the browser. [Sleep] is the local timer of the simulated
    senders; it is recorded but it is not a remote call. *)
Inductive request : Type :=
| Db (q : db_request)
| AuthGetSession
| FunctionsInvoke (name : string) (body : value)
| Fetch (r : http_request)
| Sleep (ms : Z).

Definition trace := list request.

(** An awaited promise either fulfils or rejects. *)
Inductive settled (A : Type) : Type :=
| Fulfilled (a : A)
| Rejected (e : exn).
Arguments Fulfilled {A} a.
Arguments Rejected {A} e.

(** [{ data, error }] as the backend client resolves it. *)
Record response : Type := mk_response { data : value; error : value }.

(** A [Response] of [fetch]: its [ok] flag and what [json()] settles to. *)
Record http_response : Type := mk_http_response {
  ok : bool;
  json : settled value
}.

(** The environment.  Every answer may depend on the requests issued so
    far and on the request itself. *)
Record world : Type := mk_world {
  postgrest : trace -> db_request -> settled response;
  auth_session : trace -> settled value;         (* [data.session] *)
  functions : trace -> string -> value -> settled response;
  http : trace -> http_request -> settled http_response;
  VITE_OPENAI_API_KEY : value;                   (* [import.meta.env] *)
  now_ms : trace -> Z;                           (* [new Date().getTime()] *)
  date_parse : value -> option Z;                (* [new Date(v)], [None] when invalid *)
  toISOString : Z -> string;
  toLocaleString : Z -> string
}.

(** ** Computations

    A computation reads the history, extends it with the requests it
    issues, and returns or throws. *)
Definition M (A : Type) : Type := trace -> trace * (exn + A).

Definition ret {A} (a : A) : M A := fun h => (h, inr a).

Definition throw {A} (e : exn) : M A := fun h => (h, inl e).

Definition bind {A B} (m : M A) (f : A -> M B) : M B :=
  fun h =>
    match m h with
    | (h', inl e) => (h', inl e)
    | (h', inr a) => f a h'
    end.

(** [try { body } catch (e) { handler e }]. *)
Definition try_catch {A} (body : M A) (handler : exn -> M A) : M A :=
  fun h =>
    match body h with
    | (h', inl e) => handler e h'
    | (h', inr a) => (h', inr a)
    end.

(** A local step that may throw. *)
Definition lift {A} (r : exn + A) : M A := fun h => (h, r).

(** [if (c) throw e]. *)
Definition when (c : bool) (e : exn) : M unit :=
  if c then throw e else ret tt.

(** [await] of a promise that is already under way, such as
    [response.json()]. *)
Definition settle {A} (p : settled A) : M A :=
  lift (match p with Fulfilled a => inr a | Rejected e => inl e end).

(** [await] of a request: record it, then settle. *)
Definition await {A} (req : request) (answer : trace -> settled A) : M A :=
  fun h =>
    match answer h with
    | Fulfilled a => ((h ++ [req])%list, inr a)
    | Rejected e => ((h ++ [req])%list, inl e)
    end.

(** [new Date().toISOString()]. *)
Definition now (W : world) : M string :=
  fun h => (h, inr (toISOString W (now_ms W h))).

Definition query (W : world) (q : db_request) : M response :=
  await (Db q) (fun h => postgrest W h q).

Definition getSession (W : world) : M value :=
  await AuthGetSession (auth_session W).

Definition invoke (W : world) (name : string) (body : value) : M response :=
  await (FunctionsInvoke name body) (fun h => functions W h name body).

Definition fetch (W : world) (r : http_request) : M http_response :=
  await (Fetch r) (fun h => http W h r).

(** [new Date().getTime()]. *)
Definition getTime (W : world) : M Z := fun h => (h, inr (now_ms W h)).

Definition sleep (ms : Z) : M unit :=
  fun h => ((h ++ [Sleep ms])%list, inr tt).

Declare Scope js_scope.
Delimit Scope js_scope with js.
Notation "x <- m ;; k" := (bind m (fun x => k))
  (at level 61, m at next level, right associativity) : js_scope.
Notation "m ;;; k" := (bind m (fun _ => k))
  (at level 61, right associativity) : js_scope.

(** ** Reading a trace *)

Definition is_write (r : request) : bool :=
  match r with
  | Db q =>
      match verb q with
      | Insert _ | Update _ | Delete => true
      | Select _ => false
      end
  | _ => false
  end.

Definition is_remote (r : request) : bool :=
  match r with
  | Sleep _ => false
  | _ => true
  end.

Definition count (c : request -> bool) (t : trace) : nat :=
  List.length (List.filter c t).

Definition writes (t : trace) : nat := count is_write t.


(** The values written to [automation_status] of [automation_runs], in
    the order they are written. *)
Definition run_statuses (t : trace) : list value :=
  List.flat_map
    (fun r =>
       match r with
       | Db q =>
           if String.eqb (table q) "automation_runs" then
             match verb q with
             | Insert row | Update row => [opt_get row "automation_status"]
             | _ => []
             end
           else []
       | _ => []
       end) t.

(** The updates of [automation_runs] in a trace. *)
Definition is_run_update (r : request) : bool :=
  match r with
  | Db q =>
      String.eqb (table q) "automation_runs"
      && match verb q with Update _ => true | _ => false end
  | _ => false
  end.

(** ** Specifications

    [spec c m n Q E]: from any history, [m] adds requests of which at
    most [n] are counted by [c], and it returns a value in [Q] or throws
    an error in [E]. *)
Definition spec {A} (c : request -> bool) (m : M A) (n : nat)
  (Q : A -> Prop) (E : exn -> Prop) : Prop :=
  forall h, exists tr r,
    m h = ((h ++ tr)%list, r) /\ (count c tr <= n)%nat /\
    match r with inr a => Q a | inl e => E e end.

Definition any {A} : A -> Prop := fun _ => True.
Definition none {A} : A -> Prop := fun _ => False.


(** No query of the backend client throws: each is answered with a
    [{ data, error }]. *)
Definition answers (W : world) : Prop :=
  forall h q, exists r, postgrest W h q = Fulfilled r.

(** What the backend client promises: a query never rejects, and with
    [.single()] it resolves to a row or to an error. *)
Definition postgrest_contract (W : world) : Prop :=
  forall h q, exists r,
    postgrest W h q = Fulfilled r /\
    (single q = true -> truthy (error r) = false -> truthy (data r) = true).

End Remote.

Import Remote.
Local Open Scope js_scope.

(* ===================================================================== *)
(** * The automation executor *)
(* ===================================================================== *)

Module Executor.

Record AutomationExecutionResult : Type := mk_result {
  success : bool;
  message : value;
  payload : value          (* the optional [data] member *)
}.

Definition failure (msg : string) : AutomationExecutionResult :=
  mk_result false (VStr msg) VUndefined.

(** [error.message || fallback] of a catch clause. *)
Definition caught (fallback : string) (e : exn) : AutomationExecutionResult :=
  mk_result false (VStr (exn_message e) ||| VStr fallback) VUndefined.

(** A result that reports a failure carries a string as its message. *)
Definition reported (r : AutomationExecutionResult) : Prop :=
  success r = false -> exists s, message r = VStr s.

(** [handler] is [attempt] inside a [try] whose [catch] returns the
    failure: it returns what [attempt] returns, and the error [attempt]
    throws becomes a result with its message, or with [fallback] when
    the message is empty. *)
Definition catches (attempt handler : M AutomationExecutionResult)
  (fallback : string) : Prop :=
  forall h,
    (exists h' r, handler h = (h', inr r) /\ reported r) /\
    (forall h' r, attempt h = (h', inr r) -> handler h = (h', inr r)) /\
    (forall h' e, attempt h = (h', inl e) ->
       handler h =
       (h', inr (mk_result false
                   (VStr (if String.eqb (exn_message e) "" then fallback
                          else exn_message e))
                   VUndefined))).

Definition dquote : string := String (ascii_of_nat 34) EmptyString.

Definition eq_filter (table columns column : string) (key : value)
  : db_request :=
  mk_db table (Select columns) [(column, key)] None None None true.

(** The lookup of the recipient both mail handlers share:
    [clientEmail], or the [email] of the client row when only
    [config.client_id] is given. *)
Definition recipient (W : world) (clientEmail clientId : value) : M value :=
  if negb (truthy clientEmail) && truthy clientId then
    r <- query W (eq_filter "clients" "email, client_id" "client_id" clientId) ;;
    if truthy (error r) || negb (truthy (data r)) then
      throw (Error ("Client not found: "
                    ++ to_string (opt_get (error r) "message"
                                  ||| VStr "Unknown error")))
    else lift (get (data r) "email")
  else ret clientEmail.

(** The answer of the [send-email] function, checked the same way by
    both mail handlers. *)
Definition check_sent (fallback : string) (r : response) : M unit :=
  (if truthy (error r) then
     m <- lift (get (error r) "message") ;;
     throw (error_of (m ||| VStr fallback))
   else ret tt) ;;;
  when (negb (truthy (data r)) || negb (truthy (opt_get (data r) "success")))
       (error_of (opt_get (data r) "error" ||| VStr fallback)).

(** ** The handlers of [src/lib] *)

(** The [try] block of [executeEmailAutomation]. *)
Definition emailAttempt (W : world) (automation clientEmail : value)
  : M AutomationExecutionResult :=
  c <- lift (get automation "config") ;;
  let config := c ||| VObj [] in
  em <- lift (get config "email_message") ;;
  let emailMessage := em ||| VStr "" in
  es <- lift (get config "email_subject") ;;
  nm <- lift (get automation "name") ;;
  let emailSubject := es ||| nm ||| VStr "Email from ClientFlowAI" in
  clientId <- lift (get config "client_id") ;;
  when (negb (truthy emailMessage)) (Error "Email message is required") ;;;
  recipientEmail <- recipient W clientEmail clientId ;;
  when (negb (truthy recipientEmail))
       (Error "Client email is required. Please select a client or provide an email address.") ;;;
  (* [config.email_send_date] is only compared and logged here: the
     mail goes out at once whatever the date *)
  session <- getSession W ;;
  when (negb (truthy session)) (Error "User not authenticated") ;;;
  html <- lift (replace_method emailMessage) ;;
  r <- invoke W "send-email"
         (VObj [("to", recipientEmail); ("subject", emailSubject);
                ("html", VStr html); ("text", emailMessage)]) ;;
  check_sent "Failed to send email" r ;;;
  ret (mk_result true
         (opt_get (data r) "message" ||| VStr "Email sent successfully")
         (VObj [("sent", VBool true); ("to", recipientEmail);
                ("subject", emailSubject);
                ("emailId", opt_get (opt_get (data r) "data") "id")])).

Definition executeEmailAutomation (W : world) (automation clientEmail : value)
  : M AutomationExecutionResult :=
  try_catch (emailAttempt W automation clientEmail)
    (fun e => ret (caught "Failed to send email" e)).

Definition nl : string := String (ascii_of_nat 10) EmptyString.

(** The HTML template of the follow-up mail. *)
Definition follow_up_html (meetingName : value) (content : string) : string :=
  nl ++ "      <div style=" ++ dquote
     ++ "font-family: Arial, sans-serif; max-width: 600px; margin: 0 auto;"
     ++ dquote ++ ">" ++ nl
     ++ "        <h2 style=" ++ dquote ++ "color: #333;" ++ dquote
     ++ ">Follow-up: " ++ to_string meetingName ++ "</h2>" ++ nl
     ++ "        <div style=" ++ dquote
     ++ "margin-top: 20px; line-height: 1.6;" ++ dquote ++ ">" ++ nl
     ++ "          " ++ content ++ nl
     ++ "        </div>" ++ nl
     ++ "      </div>" ++ nl
     ++ "    ".

(** The [try] block of [executeMeetingFollowUpAutomation]. *)
Definition meetingAttempt (W : world)
  (automation clientEmail : value) : M AutomationExecutionResult :=
  c <- lift (get automation "config") ;;
  let config := c ||| VObj [] in
  mn <- lift (get config "meeting_name") ;;
  let meetingName := mn ||| VStr "" in
  ec <- lift (get config "email_content") ;;
  let emailContent := ec ||| VStr "" in
  clientId <- lift (get config "client_id") ;;
  when (negb (truthy meetingName) || negb (truthy emailContent))
       (Error "Meeting name and email content are required") ;;;
  recipientEmail <- recipient W clientEmail clientId ;;
  when (negb (truthy recipientEmail))
       (Error "Client email is required. Please select a client or provide an email address.") ;;;
  session <- getSession W ;;
  when (negb (truthy session)) (Error "User not authenticated") ;;;
  let emailSubject := VStr ("Follow-up: " ++ to_string meetingName) in
  html <- lift (replace_method emailContent) ;;
  r <- invoke W "send-email"
         (VObj [("to", recipientEmail); ("subject", emailSubject);
                ("html", VStr (follow_up_html meetingName html));
                ("text", emailContent)]) ;;
  check_sent "Failed to send meeting follow-up email" r ;;;
  ret (mk_result true
         (opt_get (data r) "message"
          ||| VStr ("Meeting follow-up email sent for " ++ dquote
                    ++ to_string meetingName ++ dquote))
         (VObj [("sent", VBool true); ("to", recipientEmail);
                ("meetingName", meetingName);
                ("emailId", opt_get (opt_get (data r) "data") "id")])).

Definition executeMeetingFollowUpAutomation (W : world)
  (automation clientEmail : value) : M AutomationExecutionResult :=
  try_catch (meetingAttempt W automation clientEmail)
    (fun e => ret (caught "Failed to send meeting follow-up email" e)).

(** ** The summary handler, the same in both copies but for [max_tokens] *)

(** [getOpenAIApiKey]. *)
Definition getOpenAIApiKey (W : world) : exn + string :=
  let apiKey := VITE_OPENAI_API_KEY W in
  if negb (truthy apiKey) then
    inl (Error "OpenAI API key not configured. Please add VITE_OPENAI_API_KEY to your .env file")
  else
    match apiKey with
    | VStr k =>
        if String.eqb (trim k) "" then
          inl (Error "OpenAI API key is empty. Please check your .env file")
        else inr (trim k)
    | _ => inl (TypeError "apiKey.trim is not a function")
    end.

Section Summary.

(** The text blocks of the prompt are formatting only: [clientContext]
    stands for the template that prints the client, its deals, its
    interactions and its prioritization (it throws a [TypeError] on a
    malformed row), [userPrompt] for the fixed request around it. *)
Variable clientContext : value -> value -> value -> value -> exn + string.
Variable userPrompt : string -> string.
Variable maxTokens : Z.

Definition listing (W : world) (tbl : string) (key : value)
  (ord : option (string * bool)) (lim : option Z) (one : bool) : M value :=
  r <- query W (mk_db tbl (Select "*") [("client_id", key)] ord lim None one) ;;
  ret (data r).

(** The [try] block of [executeAIClientSummaryAutomation]. *)
Definition summaryAttempt (W : world) (automation : value)
  : M AutomationExecutionResult :=
  c <- lift (get automation "config") ;;
  let config := c ||| VObj [] in
  clientId <- lift (get config "client_id") ;;
  when (negb (truthy clientId)) (Error "Client ID is required") ;;;
  r1 <- query W (eq_filter "clients" "*" "client_id" clientId) ;;
  found <-
    (if truthy (error r1) && is_str (opt_get (error r1) "code") "PGRST116"
     then
       r2 <- query W (eq_filter "clients" "*" "id" clientId) ;;
       if negb (truthy (error r2)) && truthy (data r2)
       then ret (data r2, VNull)
       else ret (data r1, error r1)
     else ret (data r1, error r1)) ;;
  let client := fst found in
  let clientError := snd found in
  when (truthy clientError || negb (truthy client))
       (Error ("Client not found: "
               ++ to_string (opt_get clientError "message"
                             ||| VStr "Unknown error"))) ;;;
  cid <- lift (get client "client_id") ;;
  id <- lift (get client "id") ;;
  let actualClientId := cid ||| id ||| clientId in
  name <- lift (get client "name") ;;
  client_name <- lift (get client "client_name") ;;
  let clientName := name ||| client_name ||| VStr "Unknown" in
  deals <- listing W "deals" actualClientId None None false ;;
  interactions <- listing W "interactions" actualClientId
                    (Some ("ocurred_at", false)) (Some 10%Z) false ;;
  prioritizationData <- listing W "client_prioritizations" actualClientId
                          (Some ("created_at", false)) (Some 1%Z) true ;;
  context <- lift (clientContext client deals interactions
                     prioritizationData) ;;
  openAIApiKey <- lift (getOpenAIApiKey W) ;;
  when (String.eqb openAIApiKey "")
       (Error "OpenAI API key is not configured. Please set VITE_OPENAI_API_KEY in your environment variables.") ;;;
  resp <- fetch W (mk_http "https://api.openai.com/v1/chat/completions"
                     openAIApiKey "gpt-4o" maxTokens (userPrompt context)) ;;
  (if negb (ok resp) then
     err <- settle (json resp) ;;
     inner <- lift (get err "error") ;;
     throw (error_of (opt_get inner "message"
                      ||| VStr "Failed to generate AI summary"))
   else ret tt) ;;;
  body <- settle (json resp) ;;
  choices <- lift (get body "choices") ;;
  choice <- lift (first_item choices) ;;
  let summary := opt_get (opt_get choice "message") "content"
                 ||| VStr "No summary generated" in
  generatedAt <- now W ;;
  ret (mk_result true (VStr "AI client summary generated successfully")
         (VObj [("clientId", actualClientId); ("clientName", clientName);
                ("summary", summary);
                ("generatedAt", VStr generatedAt)])).

Definition executeAIClientSummaryAutomation (W : world) (automation : value)
  : M AutomationExecutionResult :=
  try_catch (summaryAttempt W automation)
    (fun e => ret (caught "Failed to generate AI summary" e)).

End Summary.

(** ** The handlers of the older copy, which only simulate the mail *)

Module Simulated.

(** [emailSendDate && new Date(emailSendDate) > now]: the date the mail
    is put off to, if any.  An invalid date compares false. *)
Definition scheduled_for (W : world) (emailSendDate : value) (t : Z)
  : option Z :=
  if truthy emailSendDate then
    match date_parse W emailSendDate with
    | Some sendDate => if (t <? sendDate)%Z then Some sendDate else None
    | None => None
    end
  else None.

(** The [try] block of the simulated [executeEmailAutomation]. *)
Definition emailAttempt (W : world) (automation clientEmail : value)
  : M AutomationExecutionResult :=
  c <- lift (get automation "config") ;;
  let config := c ||| VObj [] in
  em <- lift (get config "email_message") ;;
  let emailMessage := em ||| VStr "" in
  esd <- lift (get config "email_send_date") ;;
  let emailSendDate := esd ||| VStr "" in
  when (negb (truthy emailMessage)) (Error "Email message is required") ;;;
  t <- getTime W ;;
  match scheduled_for W emailSendDate t with
  | Some sendDate =>
      ret (mk_result true
             (VStr ("Email scheduled for " ++ toLocaleString W sendDate))
             (VObj [("scheduled", VBool true);
                    ("sendDate", emailSendDate)]))
  | None =>
      sleep 1000 ;;;
      ret (mk_result true (VStr "Email sent successfully")
             (VObj [("sent", VBool true); ("to", clientEmail);
                    ("message", emailMessage)]))
  end.

Definition executeEmailAutomation (W : world) (automation clientEmail : value)
  : M AutomationExecutionResult :=
  try_catch (emailAttempt W automation clientEmail)
    (fun e => ret (caught "Failed to send email" e)).

(** The [try] block of the simulated [executeMeetingFollowUpAutomation]. *)
Definition meetingAttempt (W : world)
  (automation clientEmail : value) : M AutomationExecutionResult :=
  c <- lift (get automation "config") ;;
  let config := c ||| VObj [] in
  mn <- lift (get config "meeting_name") ;;
  let meetingName := mn ||| VStr "" in
  ec <- lift (get config "email_content") ;;
  let emailContent := ec ||| VStr "" in
  when (negb (truthy meetingName) || negb (truthy emailContent))
       (Error "Meeting name and email content are required") ;;;
  sleep 1000 ;;;
  ret (mk_result true
         (VStr ("Meeting follow-up email sent for " ++ dquote
                ++ to_string meetingName ++ dquote))
         (VObj [("sent", VBool true); ("to", clientEmail);
                ("meetingName", meetingName);
                ("emailContent", emailContent)])).

Definition executeMeetingFollowUpAutomation (W : world)
  (automation clientEmail : value) : M AutomationExecutionResult :=
  try_catch (meetingAttempt W automation clientEmail)
    (fun e => ret (caught "Failed to send meeting follow-up email" e)).

End Simulated.

(** ** [executeAutomation] *)

Section Dispatch.

Variable emailHandler meetingHandler
  : world -> value -> value -> M AutomationExecutionResult.
Variable summaryHandler : world -> value -> M AutomationExecutionResult.

Definition run_insert (automationIdForRun : value) (started_at : string)
  : db_request :=
  mk_db "automation_runs"
    (Insert (VObj [("automation_id", automationIdForRun);
                   ("user_id", VNull);
                   ("automation_status", VStr "running");
                   ("started_at", VStr started_at);
                   ("finished_at", VNull)]))
    [] None None (Some "*") true.

Definition run_update (run_id : value) (updateData : value) : db_request :=
  mk_db "automation_runs" (Update updateData) [("id", run_id)]
    None None None false.

(** The [switch] on the action type. *)
Definition dispatch (W : world) (automation options : value)
  : M AutomationExecutionResult :=
  att <- lift (get automation "action_type_type") ;;
  aty <- lift (get automation "action_type") ;;
  let kind := att ||| aty in
  if is_str kind "email" then
    emailHandler W automation (opt_get options "clientEmail")
  else if is_str kind "meeting" then
    meetingHandler W automation (opt_get options "clientEmail")
  else if is_str kind "ai-summary" then
    summaryHandler W automation
  else
    ret (mk_result false
           (VStr ("Unknown automation type: " ++ to_string kind)) VUndefined).

Definition status_of (result : AutomationExecutionResult) : string :=
  if success result then "completed" else "failed".

(** The fields the run is updated with once the handler has returned. *)
Definition updateData (automation : value) (result : AutomationExecutionResult)
  (finished_at : string) : value :=
  let base :=
    [("automation_status", VStr (status_of result));
     ("error_message", if success result then VNull else message result);
     ("finished_at", VStr finished_at)] in
  if success result && truthy (payload result)
     && (is_str (opt_get automation "action_type_type") "ai-summary"
         || is_str (opt_get automation "action_type") "ai-summary")
  then VObj (base ++ [("result_data", payload result)])%list
  else VObj base.

(** [if (run) { ... update ... }] of the [try] block. *)
Definition complete_run (W : world) (automation run : value)
  (result : AutomationExecutionResult) : M unit :=
  if truthy run then
    finished_at <- now W ;;
    run_id <- lift (get run "id") ;;
    query W (run_update run_id (updateData automation result finished_at)) ;;;
    ret tt
  else ret tt.

(** [if (run) { ... update ... }] of the [catch] block. *)
Definition fail_run (W : world) (run : value) (e : exn) : M unit :=
  if truthy run then
    finished_at <- now W ;;
    run_id <- lift (get run "id") ;;
    query W (run_update run_id
               (VObj [("automation_status", VStr "failed");
                      ("error_message", VStr (exn_message e));
                      ("finished_at", VStr finished_at)])) ;;;
    ret tt
  else ret tt.

(** The insert was answered with neither an error nor a row: the log
    line after it then reads [run.id] of [null]. *)
Definition unanswered (r : response) : bool :=
  negb (truthy (error r))
  && match data r with
     | VUndefined | VNull => true
     | _ => false
     end.

(** [automation.is_enabled || automation.is_active]. *)
Definition enabled (automation : value) : bool :=
  truthy (opt_get automation "is_enabled")
  || truthy (opt_get automation "is_active").

(** [automation.action_type_type || automation.action_type]. *)
Definition kind_of (automation : value) : value :=
  opt_get automation "action_type_type" ||| opt_get automation "action_type".

(** The insert that opens the run of [automation], from history [h]. *)
Definition opening (W : world) (automation : value) (h : trace)
  : db_request :=
  run_insert (opt_get automation "automation_id" ||| opt_get automation "id")
    (toISOString W (now_ms W h)).

(** The update that closes the run [run] with [result], from history [h]. *)
Definition closing (W : world) (automation run : value)
  (result : AutomationExecutionResult) (h : trace) : db_request :=
  run_update (opt_get run "id")
    (updateData automation result (toISOString W (now_ms W h))).

Definition executeAutomation (W : world) (automation options : value)
  : M AutomationExecutionResult :=
  en <- lift (get automation "is_enabled") ;;
  ac <- lift (get automation "is_active") ;;
  if negb (truthy en) && negb (truthy ac) then
    ret (failure "Automation is disabled")
  else
    aid <- lift (get automation "automation_id") ;;
    id <- lift (get automation "id") ;;
    started_at <- now W ;;
    r <- query W (run_insert (aid ||| id) started_at) ;;
    let run := data r in
    (* the log line of the else branch reads [run.id] *)
    (if truthy (error r) then ret tt
     else lift (get run "id") ;;; ret tt) ;;;
    try_catch
      (result <- dispatch W automation options ;;
       complete_run W automation run result ;;;
       ret result)
      (fun e =>
         fail_run W run e ;;;
         ret (caught "Failed to execute automation" e)).

End Dispatch.

(** The prompt templates of the summary handler. *)
Record templates : Type := mk_templates {
  clientContext : value -> value -> value -> value -> exn + string;
  userPrompt : string -> string
}.

(** What a handler may issue: reads of the four tables it consults, the
    session fetch, the call of the mail function, the POST to the chat
    endpoint, and the timer of the simulated senders. *)
Definition handler_call (r : request) : bool :=
  match r with
  | Db q =>
      match verb q with
      | Select _ =>
          List.existsb (String.eqb (table q))
            ["clients"; "deals"; "interactions"; "client_prioritizations"]
      | _ => false
      end
  | AuthGetSession => true
  | FunctionsInvoke name _ => String.eqb name "send-email"
  | Fetch q => String.eqb (url q) "https://api.openai.com/v1/chat/completions"
  | Sleep _ => true
  end.

Definition stray (r : request) : bool := negb (handler_call r).

(** The remote calls a run may take, by action type: the insert, the
    handler's calls, the update. *)
Definition budget (kind : value) : nat :=
  if is_str kind "email" || is_str kind "meeting" then 5
  else if is_str kind "ai-summary" then 8
  else 2.

(** The executor of [src/lib]: mail through the [send-email] function. *)
Module Src.

Definition executeAIClientSummaryAutomation (T : templates) :=
  Executor.executeAIClientSummaryAutomation
    (clientContext T) (userPrompt T) 500.

Definition executeAutomation (T : templates) :=
  Executor.executeAutomation
    executeEmailAutomation executeMeetingFollowUpAutomation
    (executeAIClientSummaryAutomation T).

End Src.

(** The executor of the older copy: mail is simulated. *)
Module Frontend.

Definition executeAIClientSummaryAutomation (T : templates) :=
  Executor.executeAIClientSummaryAutomation
    (clientContext T) (userPrompt T) 1500.

Definition executeAutomation (T : templates) :=
  Executor.executeAutomation
    Simulated.executeEmailAutomation
    Simulated.executeMeetingFollowUpAutomation
    (executeAIClientSummaryAutomation T).

End Frontend.

(** The two copies of the executor the repository holds. *)
Inductive copy : Type := SrcLib | FrontendLib.

Definition dispatch_of (k : copy) (T : templates) :=
  match k with
  | SrcLib =>
      dispatch executeEmailAutomation executeMeetingFollowUpAutomation
        (Src.executeAIClientSummaryAutomation T)
  | FrontendLib =>
      dispatch Simulated.executeEmailAutomation
        Simulated.executeMeetingFollowUpAutomation
        (Frontend.executeAIClientSummaryAutomation T)
  end.

Definition executeAutomation_of (k : copy) (T : templates) :=
  match k with
  | SrcLib => Src.executeAutomation T
  | FrontendLib => Frontend.executeAutomation T
  end.

End Executor.

(* ===================================================================== *)
(** * The document analyzer *)
(* ===================================================================== *)

Module Analyzer.

Record PDFAnalysisResult : Type := mk_analysis {
  priority : string;
  keywordsCount : value;
  sentiment : string;
  reasoning : value
}.

Definition normalizePriority (priority : string) : string :=
  let normalized := trim (toLowerCase priority) in
  if String.eqb normalized "low" || String.eqb normalized "medium"
     || String.eqb normalized "high"
  then normalized
  else "medium".

Definition normalizeSentiment (sentiment : string) : string :=
  let normalized := trim (toLowerCase sentiment) in
  if String.eqb normalized "low" || String.eqb normalized "mid"
     || String.eqb normalized "medium" || String.eqb normalized "high"
  then if String.eqb normalized "medium" then "mid" else normalized
  else "mid".

(** A call of a normalizer on a member of the parsed answer, which need
    not be a string: [toLowerCase] is then missing or the member is. *)
Definition on_string (f : string -> string) (member : string) (v : value)
  : exn + string :=
  match v with
  | VStr s => inr (f s)
  | VUndefined | VNull =>
      inl (TypeError ("Cannot read properties of " ++ to_string v
                      ++ " (reading 'toLowerCase')"))
  | _ => inl (TypeError (member ++ ".toLowerCase is not a function"))
  end.

(** A [File]: its declared type, and what [fileToBase64] settles to. *)
Record File : Type := mk_file {
  file_type : value;
  fileToBase64 : settled string
}.

Section Analysis.

(** [JSON.parse]. *)
Variable JSON_parse : string -> exn + value.

(** The prompt sent with the document, for an image or for a PDF. *)
Variable prompt : string -> string.

(** The [try] block the two analysis functions share, from the request
    on; [what] is the word that differs in their messages. *)
Definition analysis (W : world) (openAIApiKey dataUrl what : string)
  : M PDFAnalysisResult :=
  try_catch
    (resp <- fetch W (mk_http "https://api.openai.com/v1/chat/completions"
                        openAIApiKey "gpt-4o" 500
                        (prompt what ++ dataUrl)) ;;
     (if negb (ok resp) then
        err <- settle (json resp) ;;
        inner <- lift (get err "error") ;;
        throw (error_of (opt_get inner "message"
                         ||| VStr ("Failed to analyze " ++ what)))
      else ret tt) ;;;
     body <- settle (json resp) ;;
     choices <- lift (get body "choices") ;;
     choice <- lift (first_item choices) ;;
     let content := opt_get (opt_get choice "message") "content" in
     when (negb (truthy content)) (Error "No response from OpenAI") ;;;
     parsed <- lift (JSON_parse (to_string content)) ;;
     p <- lift (get parsed "priority") ;;
     priority <- lift (on_string normalizePriority "priority" p) ;;
     s <- lift (get parsed "sentiment") ;;
     sentiment <- lift (on_string normalizeSentiment "sentiment" s) ;;
     ret (mk_analysis priority
            (opt_get parsed "keywordsCount" ||| VNum 0)
            sentiment
            (opt_get parsed "reasoning" ||| VStr "")))
    (fun e => throw (Error ("Failed to analyze " ++ what ++ ": "
                            ++ exn_message e))).

(** [apiKey || getOpenAIApiKey()]. *)
Definition key_or_env (W : world) (apiKey : value) : exn + string :=
  if truthy apiKey then inr (to_string apiKey)
  else Executor.getOpenAIApiKey W.

Definition analyzeImageWithOpenAI (W : world) (file : File) (apiKey : value)
  : M PDFAnalysisResult :=
  openAIApiKey <- lift (key_or_env W apiKey) ;;
  base64 <- settle (fileToBase64 file) ;;
  let mimeType := file_type file ||| VStr "image/jpeg" in
  analysis W openAIApiKey
    ("data:" ++ to_string mimeType ++ ";base64," ++ base64) "image".




End Analysis.

End Analyzer.

(* ===================================================================== *)
(** * The data hooks *)
(* ===================================================================== *)

Module Hooks.

Definition row := list (string * value).

(** [throw error] of a backend error object. *)
Definition thrown (error : value) : exn :=
  mk_exn "PostgrestError" (to_string (opt_get error "message")).

Definition indexed (items : list value) : row :=
  List.map (fun p => (show_Z (Z.of_nat (fst p)), snd p))
    (List.combine (List.seq 0 (List.length items)) items).

Fixpoint chars (s : string) : list value :=
  match s with
  | EmptyString => []
  | String c r => VStr (String c EmptyString) :: chars r
  end.

(** [{ ...v }]. *)
Definition spread (v : value) : row :=
  match v with
  | VObj fields => fields
  | VArr items => indexed items
  | VStr s => indexed (chars s)
  | _ => []
  end.


(** [{ ...base, k1: v1, ... }]. *)
Definition extend (base : row) (more : row) : row :=
  List.fold_left (fun acc kv => set (fst kv) (snd kv) acc) more base.

(** [(data || []).map(f)]. *)
Definition map_rows (f : value -> exn + value) (data : value)
  : exn + value :=
  match data ||| VArr [] with
  | VArr rows =>
      List.fold_right
        (fun x acc =>
           match f x, acc with
           | inl e, _ => inl e
           | inr _, inl e => inl e
           | inr y, inr (VArr ys) => inr (VArr (y :: ys))
           | inr _, inr other => inr other
           end)
        (inr (VArr [])) rows
  | _ => inl (TypeError "(data || []).map is not a function")
  end.

(** ** [useClients.tsx] *)

(** The mapping of one row of [clients]. *)
Definition mapClient (client : value) : exn + value :=
  match get client "client_id" with
  | inl e => inl e
  | inr client_id =>
      inr (VObj (extend (spread client)
                   [("id", client_id ||| opt_get client "id");
                    ("source", opt_get client "source"
                               ||| opt_get client "lead_source" ||| VNull);
                    ("status", opt_get client "priority"
                               ||| opt_get client "status" ||| VNull)]))
  end.

(** What the mapping promises of a row [r] and its record [o]: the
    three fallbacks, each taking the first truthy column, and every
    other field as it was. *)
Definition fallbacks (r o : row) : Prop :=
  lookup o "id" = (lookup r "client_id" ||| lookup r "id") /\
  lookup o "source" = (lookup r "source" ||| lookup r "lead_source" ||| VNull) /\
  lookup o "status" = (lookup r "priority" ||| lookup r "status" ||| VNull) /\
  forall k, k <> "id" -> k <> "source" -> k <> "status" ->
            lookup o k = lookup r k.

Definition clients_query (user_id : value) : db_request :=
  mk_db "clients" (Select "*") [("user_id", user_id)]
    (Some ("created_at", false)) None None false.

Definition useClients (W : world) (user : value) : M value :=
  if negb (truthy (opt_get user "id")) then ret (VArr [])
  else
    r <- query W (clients_query (opt_get user "id")) ;;
    when (truthy (error r)) (thrown (error r)) ;;;
    lift (map_rows mapClient (data r)).





(** ** [useDeals.tsx] *)





(** ** [useAutomations.tsx] and [useAutomationRuns.tsx] *)


Section Parsing.

(** [JSON.parse]. *)
Variable JSON_parse : string -> exn + value.













End Parsing.

End Hooks.

(* ===================================================================== *)
(** * The dashboard: [PriorityClients] *)
(* ===================================================================== *)

Module Dashboard.

Import Hooks.

(** [deal.client_id || deal.clients?.id]. *)
Definition dealClientId (deal : row) : value :=
  lookup deal "client_id" ||| opt_get (lookup deal "clients") "id".

(** The deals kept by the [filter] for one client. *)
Definition clientDeals (deals : list row) (client : row) : list row :=
  List.filter
    (fun deal =>
       String.eqb (to_string (dealClientId deal))
                  (to_string (lookup client "id")))
    deals.

(** [{ ...client, deals: clientDeals.length, priority: client.status || "medium" }]. *)
Definition entry (deals : list row) (client : row) : row :=
  extend client
    [("deals", VNum (Z.of_nat (List.length (clientDeals deals client))));
     ("priority", lookup client "status" ||| VStr "medium")].

(** What indexing the literal [{ high: 3, medium: 2, low: 1 }] yields:
    one of its own numbers, or, for a name every object inherits, the
    inherited member. *)
Inductive slot : Type :=
| Own (n : Z)
| Inherited (member : string)
| Missing.

Definition inherited_members : list string :=
  ["constructor"; "hasOwnProperty"; "isPrototypeOf"; "propertyIsEnumerable";
   "toLocaleString"; "toString"; "valueOf"; "__proto__";
   "__defineGetter__"; "__defineSetter__"; "__lookupGetter__";
   "__lookupSetter__"].

Definition priorityOrder (key : string) : slot :=
  if String.eqb key "high" then Own 3
  else if String.eqb key "medium" then Own 2
  else if String.eqb key "low" then Own 1
  else if List.existsb (String.eqb key) inherited_members then Inherited key
  else Missing.

(** [priorityOrder[p] || 2]: a number, or an inherited member, which is
    an object and so truthy. *)
Inductive rank : Type :=
| Rank (n : Z)
| Member (name : string).

Definition rank_of (p : value) : rank :=
  match priorityOrder (to_string p) with
  | Own n => if Z.eqb n 0 then Rank 2 else Rank n
  | Inherited m => Member m
  | Missing => Rank 2
  end.

(** [x === y] on ranks. *)
Definition rank_eqb (x y : rank) : bool :=
  match x, y with
  | Rank a, Rank b => Z.eqb a b
  | Member a, Member b => String.eqb a b
  | _, _ => false
  end.

Definition deals_count (e : row) : Z :=
  match lookup e "deals" with
  | VNum n => n
  | _ => 0
  end.

(** The comparator; [None] is [NaN], the difference of two values of
    which one is not a number. *)
Definition compare (a b : row) : option Z :=
  let aPriority := rank_of (lookup a "priority") in
  let bPriority := rank_of (lookup b "priority") in
  if negb (rank_eqb bPriority aPriority) then
    match bPriority, aPriority with
    | Rank x, Rank y => Some (x - y)%Z
    | _, _ => None
    end
  else Some (deals_count b - deals_count a)%Z.

(** [a] may stay before [b]: the comparator is not positive.  [sort]
    reads [NaN] as zero. *)
Definition before (a b : row) : bool :=
  match compare a b with
  | Some d => (d <=? 0)%Z
  | None => true
  end.

(** [Array.prototype.sort] is stable; so is insertion from the right. *)
Fixpoint insert (x : row) (l : list row) : list row :=
  match l with
  | [] => [x]
  | y :: r => if before x y then x :: l else y :: insert x r
  end.

Definition sort (l : list row) : list row := List.fold_right insert [] l.

Definition priorityClients (clients deals : list row) : list row :=
  List.firstn 5 (sort (List.map (entry deals) clients)).

(** The rank the list is meant to follow: high 3, medium 2, low 1,
    anything else 2. *)
Definition priority_rank (e : row) : Z :=
  let p := to_string (lookup e "priority") in
  if String.eqb p "high" then 3
  else if String.eqb p "low" then 1
  else 2.

(** A priority whose name no object inherits. *)
Definition plain_priority (p : value) : bool :=
  negb (List.existsb (String.eqb (to_string p)) inherited_members).

(** [a] is rightly placed before [b]. *)
Definition ordered (a b : row) : Prop :=
  (priority_rank b < priority_rank a)%Z \/
  (priority_rank a = priority_rank b /\ (deals_count b <= deals_count a)%Z).

End Dashboard.

(* ===================================================================== *)
(** * The data operations, taken together *)
(* ===================================================================== *)

Module Operations.

Import Executor Hooks.





End Operations.

(* ===================================================================== *)
(** * Reasoning backwards over a computation *)
(* ===================================================================== *)

Module Wp.

(** [wp m post h]: run from the history [h], the computation [m] ends
    in a history and an outcome that [post] relates. *)
Definition wp {A} (m : M A) (post : trace -> exn + A -> Prop) (h : trace)
  : Prop :=
  post (fst (m h)) (snd (m h)).

End Wp.

Import Wp.

(* ===================================================================== *)
(** * The key check of [openai-config.ts] *)
(* ===================================================================== *)

Module Config.


End Config.

(* ===================================================================== *)
(** * What the executor's handlers are to do *)
(* ===================================================================== *)

Module Conduct.

Import Executor.

(** The three handlers of [src/lib]. *)
Inductive handler : Type := Email | Meeting | Summary.



(** A mail went out between the histories [h] and [h']: after at most
    one lookup of the client, the session was fetched and held a user,
    and the last request is the call of the mail function, for a
    recipient, answered without error and with [success] set. *)
Definition delivered (W : world) (clientEmail : value) (h h' : trace)
  : Prop :=
  exists pre body session answer,
    h' = (h ++ pre ++ [AuthGetSession;
                       FunctionsInvoke "send-email" (VObj body)])%list /\
    (pre = [] \/
     exists id, pre = [Db (eq_filter "clients" "email, client_id"
                             "client_id" id)]) /\
    (truthy clientEmail = true -> pre = [] /\ lookup body "to" = clientEmail) /\
    auth_session W (h ++ pre)%list = Fulfilled session /\
    truthy session = true /\
    truthy (lookup body "to") = true /\
    functions W (h ++ pre ++ [AuthGetSession])%list "send-email" (VObj body)
      = Fulfilled answer /\
    truthy (error answer) = false /\
    truthy (opt_get (data answer) "success") = true.


End Conduct.

(* ===================================================================== *)
(** * Scenarios: concrete backends and inputs *)
(* ===================================================================== *)

Module Scenario.

Import Executor.

Definition run_row : value := VObj [("id", VStr "run-1")].

Definition client_row : value :=
  VObj [("client_id", VStr "c1"); ("email", VStr "ann@example.com");
        ("name", VStr "Ann")].

(** A backend that accepts every request: with [.single()] it answers
    with a row, a listing is empty, a plain write answers with nothing. *)
Definition db_ok (q : db_request) : response :=
  match verb q with
  | Select _ => mk_response (if single q then client_row else VArr []) VNull
  | _ => mk_response (if single q then run_row else VNull) VNull
  end.

(** A backend that refuses every insert, as a row-level policy would,
    and accepts the rest. *)
Definition db_denied (q : db_request) : response :=
  match verb q with
  | Insert _ =>
      mk_response VNull
        (VObj [("message", VStr "permission denied"); ("code", VStr "42501")])
  | _ => db_ok q
  end.

Definition chat_answer : value :=
  VObj [("choices",
         VArr [VObj [("message", VObj [("content", VStr "A steady client.")])]])].

(** A world around a backend: a signed-in user, a mail function and a
    chat endpoint that answer, a clock that counts the requests. *)
Definition world_of (db : db_request -> response) : world :=
  mk_world
    (fun _ q => Fulfilled (db q))
    (fun _ => Fulfilled (VObj [("access_token", VStr "t")]))
    (fun _ _ _ => Fulfilled (mk_response (VObj [("success", VBool true)]) VNull))
    (fun _ _ => Fulfilled (mk_http_response true (Fulfilled chat_answer)))
    (VStr "sk-test")
    (fun h => Z.of_nat (List.length h))
    (fun _ => None)
    show_Z
    show_Z.

Definition calm : world := world_of db_ok.
Definition denied : world := world_of db_denied.

(** A backend whose insert is answered with neither an error nor a row. *)
Definition db_mute (q : db_request) : response :=
  match verb q with
  | Insert _ => mk_response VNull VNull
  | _ => db_ok q
  end.

Definition mute : world := world_of db_mute.

(** A backend that finds no client and reports no error for it. *)
Definition db_lost (q : db_request) : response :=
  match verb q with
  | Select _ =>
      if String.eqb (table q) "clients" then mk_response VNull VNull
      else db_ok q
  | _ => db_ok q
  end.

Definition lost : world := world_of db_lost.

(** The calm world with a date parser for which every send date lies
    ahead of the clock. *)
Definition early : world :=
  mk_world (postgrest calm) (auth_session calm) (functions calm) (http calm)
    (VITE_OPENAI_API_KEY calm) (now_ms calm) (fun _ => Some 1000%Z)
    show_Z show_Z.

Definition plain : templates :=
  mk_templates (fun _ _ _ _ => inr "context") (fun s => s).

Definition automation (kind : string) (config : list (string * value))
  : value :=
  VObj [("automation_id", VStr "a1"); ("name", VStr "Weekly note");
        ("is_enabled", VBool true); ("action_type_type", VStr kind);
        ("config", VObj config)].

Definition mail : value :=
  automation "email"
    [("email_message", VStr "Hello"); ("client_id", VStr "c1")].

Definition blank_mail : value := automation "email" [].

Definition dated_mail : value :=
  automation "email"
    [("email_message", VStr "Hello");
     ("email_send_date", VStr "2030-01-01T09:00")].

Definition blank_meeting : value :=
  automation "meeting" [("meeting_name", VStr "Kickoff")].

Definition summary : value := automation "ai-summary" [("client_id", VStr "c1")].

Definition paused : value :=
  VObj [("automation_id", VStr "a1"); ("is_enabled", VBool false);
        ("is_active", VNull); ("action_type_type", VStr "email")].

(** Two rows of [clients], of the older and of the newer shape, and a
    backend that answers every query with them. *)
Definition legacy_rows : list Hooks.row :=
  [ [("client_id", VStr "c1"); ("name", VStr "Ann");
     ("lead_source", VStr "referral"); ("priority", VStr "high");
     ("status", VStr "active")];
    [("id", VStr "7"); ("name", VStr "Bob"); ("source", VStr "");
     ("status", VStr "low")] ].

(** Two clients for the dashboard, the second with a status that is
    the name of a member every object inherits. *)
Definition low_client : Hooks.row :=
  [("id", VStr "a"); ("name", VStr "Ann"); ("status", VStr "low")].

Definition odd_client : Hooks.row :=
  [("id", VStr "b"); ("name", VStr "Bob"); ("status", VStr "constructor")].

Definition legacy : world :=
  world_of (fun q => mk_response (VArr (List.map VObj legacy_rows)) VNull).

End Scenario.

(* ===================================================================== *)
(** * Rules of the specification logic *)
(* ===================================================================== *)

Local Open Scope list_scope.

(** Numbers as [String] prints them: all the digits of a number a
    double holds below [2^53], above it the fewest digits that read
    back as the same double, and from [1e21] on the exponent form. *)
Example show_Z_forms :
  show_Z 42 = "42" /\ show_Z (-7) = "-7" /\ show_Z 0 = "0" /\
  show_Z (2 ^ 53) = "9007199254740992" /\
  show_Z (2 ^ 64) = "18446744073709552000" /\
  show_Z (10 ^ 21 - 2 ^ 17) = "999999999999999900000" /\
  show_Z (10 ^ 21) = "1e+21" /\
  show_Z (- 10 ^ 21) = "-1e+21" /\
  show_Z (2 ^ 70) = "1.1805916207174113e+21" /\
  show_Z 99999999999999991611392 = "1e+23".
Proof. vm_compute. repeat split. Qed.

(** A deal whose [client_id] is a string is matched with a client whose
    [id] is a number by what [String] prints of the number. *)
Example exponent_id_matches :
  Dashboard.clientDeals
    [ [("client_id", VStr "1e+21")];
      [("client_id", VStr "1000000000000000000000")] ]
    [("id", VNum (10 ^ 21))]
  = [ [("client_id", VStr "1e+21")] ].
Proof. reflexivity. Qed.

Section Rules.

Variable c : request -> bool.

Lemma count_app (t1 t2 : trace) :
  count c (t1 ++ t2) = (count c t1 + count c t2)%nat.
Proof. unfold count. now rewrite filter_app, length_app. Qed.

Lemma spec_ret {A} (a : A) (Q : A -> Prop) E : Q a -> spec c (ret a) 0 Q E.
Proof.
  intros Ha h. exists [], (inr a). now rewrite app_nil_r.
Qed.

Lemma spec_throw {A} (e : exn) (Q : A -> Prop) (E : exn -> Prop) :
  E e -> spec c (throw e) 0 Q E.
Proof.
  intros He h. exists [], (inl e). now rewrite app_nil_r.
Qed.

Lemma spec_lift {A} (r : exn + A) : spec c (lift r) 0 any any.
Proof.
  intros h. exists [], r. rewrite app_nil_r.
  repeat split; auto. destruct r; exact I.
Qed.

Lemma spec_settle {A} (p : settled A) : spec c (settle p) 0 any any.
Proof. apply spec_lift. Qed.

Lemma spec_when (b : bool) (e : exn) : spec c (when b e) 0 any any.
Proof.
  destruct b; [apply spec_throw | apply spec_ret]; exact I.
Qed.

Lemma spec_now (W : world) : spec c (now W) 0 any any.
Proof.
  intros h. exists [], (inr (toISOString W (now_ms W h))).
  rewrite app_nil_r. repeat split; auto.
Qed.

Lemma spec_getTime (W : world) : spec c (getTime W) 0 any any.
Proof.
  intros h. exists [], (inr (now_ms W h)).
  rewrite app_nil_r. repeat split; auto.
Qed.

Lemma spec_await {A} (req : request) (answer : trace -> settled A) n :
  ((if c req then 1 else 0) <= n)%nat -> spec c (await req answer) n any any.
Proof.
  intros Hn h. unfold await.
  assert (Hc : (count c [req] <= n)%nat).
  { unfold count. simpl. destruct (c req); simpl; lia. }
  destruct (answer h) as [a | e]; eexists [req], _;
    repeat split; auto; exact I.
Qed.

Lemma spec_sleep (ms : Z) n :
  ((if c (Sleep ms) then 1 else 0) <= n)%nat -> spec c (sleep ms) n any any.
Proof.
  intros Hn h. exists [Sleep ms], (inr tt). repeat split; auto.
  unfold count. simpl. destruct (c (Sleep ms)); simpl in *; lia.
Qed.

Lemma spec_bind {A B} (m : M A) (f : A -> M B) n1 n2 Q E :
  spec c m n1 any E -> (forall a, spec c (f a) n2 Q E) ->
  spec c (bind m f) (n1 + n2) Q E.
Proof.
  intros Hm Hf h. destruct (Hm h) as (tr1 & r1 & E1 & L1 & R1).
  unfold bind. rewrite E1. destruct r1 as [e | a].
  - exists tr1, (inl e). repeat split; auto. lia.
  - destruct (Hf a (h ++ tr1)) as (tr2 & r2 & E2 & L2 & R2).
    exists (tr1 ++ tr2), r2. rewrite E2, app_assoc, count_app.
    repeat split; auto. lia.
Qed.

Lemma spec_try {A} (body : M A) (handler : exn -> M A) n1 n2 Q E :
  spec c body n1 Q any -> (forall e, spec c (handler e) n2 Q E) ->
  spec c (try_catch body handler) (n1 + n2) Q E.
Proof.
  intros Hb Hh h. destruct (Hb h) as (tr1 & r1 & E1 & L1 & R1).
  unfold try_catch. rewrite E1. destruct r1 as [e | a].
  - destruct (Hh e (h ++ tr1)) as (tr2 & r2 & E2 & L2 & R2).
    exists (tr1 ++ tr2), r2. rewrite E2, app_assoc, count_app.
    repeat split; auto. lia.
  - exists tr1, (inr a). repeat split; auto. lia.
Qed.

Lemma spec_if {A} (b : bool) (m1 m2 : M A) n1 n2 Q E :
  spec c m1 n1 Q E -> spec c m2 n2 Q E ->
  spec c (if b then m1 else m2) (Nat.max n1 n2) Q E.
Proof.
  intros H1 H2 h. destruct b.
  - destruct (H1 h) as (tr & r & E1 & L & R). exists tr, r.
    repeat split; auto. lia.
  - destruct (H2 h) as (tr & r & E1 & L & R). exists tr, r.
    repeat split; auto. lia.
Qed.

Lemma spec_option {A B} (o : option B) (f : B -> M A) (m : M A) n1 n2 Q E :
  (forall b, spec c (f b) n1 Q E) -> spec c m n2 Q E ->
  spec c (match o with Some b => f b | None => m end) (Nat.max n1 n2) Q E.
Proof.
  intros H1 H2 h. destruct o as [b | ].
  - destruct (H1 b h) as (tr & r & E1 & L & R). exists tr, r.
    repeat split; auto. lia.
  - destruct (H2 h) as (tr & r & E1 & L & R). exists tr, r.
    repeat split; auto. lia.
Qed.

Lemma spec_le {A} (m : M A) n n' (Q : A -> Prop) (E : exn -> Prop) :
  spec c m n Q E -> (n <= n')%nat -> spec c m n' Q E.
Proof.
  intros H Hn h. destruct (H h) as (tr & r & E1 & L & R).
  exists tr, r. repeat split; auto. lia.
Qed.


End Rules.

(** One step of a derivation: the rule that fits the head of the goal. *)
Ltac spec_step :=
  cbv beta zeta;
  lazymatch goal with
  | |- spec _ (bind _ _) _ _ _ => eapply spec_bind; [ | intro ]
  | |- spec _ (try_catch _ _) _ _ _ => eapply spec_try; [ | intro ]
  | |- spec _ (if _ then _ else _) _ _ _ => eapply spec_if
  | |- spec _ (match _ with Some _ => _ | None => _ end) _ _ _ =>
      eapply spec_option; [ intro | ]
  | |- spec _ (ret _) _ _ _ => apply spec_ret
  | |- spec _ (throw _) _ _ _ => apply spec_throw
  | |- spec _ (lift _) _ _ _ => apply spec_lift
  | |- spec _ (settle _) _ _ _ => apply spec_settle
  | |- spec _ (when _ _) _ _ _ => apply spec_when
  | |- spec _ (now _) _ _ _ => apply spec_now
  | |- spec _ (getTime _) _ _ _ => apply spec_getTime
  | |- spec _ (sleep _) _ _ _ => apply spec_sleep; simpl; apply le_n
  | |- spec _ (query _ _) _ _ _ => apply spec_await; simpl; apply le_n
  | |- spec _ (getSession _) _ _ _ => apply spec_await; simpl; apply le_n
  | |- spec _ (invoke _ _ _) _ _ _ => apply spec_await; simpl; apply le_n
  | |- spec _ (fetch _ _) _ _ _ => apply spec_await; simpl; apply le_n
  end.


(* ===================================================================== *)
(** * The handlers *)
(* ===================================================================== *)

Section Handlers.

Import Executor.

Lemma caught_reported fb e : reported (caught fb e).
Proof.
  intros _. unfold caught, or_. simpl.
  destruct (negb (exn_message e =? "")%string); eauto.
Qed.

Lemma caught_message fb e :
  caught fb e =
  mk_result false
    (VStr (if String.eqb (exn_message e) "" then fb else exn_message e))
    VUndefined.
Proof.
  unfold caught, or_. simpl.
  destruct (exn_message e =? "")%string; reflexivity.
Qed.

Lemma sent_reported m p : reported (mk_result true m p).
Proof. intros H. discriminate H. Qed.

Lemma unknown_reported s p : reported (mk_result false (VStr s) p).
Proof. intros _. now exists s. Qed.

(** A handler is its attempt under a [catch] that returns. *)
Lemma try_catches (attempt : M AutomationExecutionResult) fb c n :
  spec c (try_catch attempt (fun e => ret (caught fb e))) n reported none ->
  catches attempt (try_catch attempt (fun e => ret (caught fb e))) fb.
Proof.
  intros Hs h. repeat split.
  - destruct (Hs h) as (tr & r & E1 & _ & R). destruct r as [e | r].
    + destruct R.
    + now exists (h ++ tr), r.
  - intros h' r Ha. unfold try_catch. now rewrite Ha.
  - intros h' e Ha. unfold try_catch. rewrite Ha. unfold ret.
    now rewrite caught_message.
Qed.

Ltac handler_spec :=
  eapply spec_le;
  [ repeat spec_step;
    first [ exact I | apply caught_reported | apply sent_reported ]
  | vm_compute; lia ].

Lemma email_calls W a ce :
  spec is_remote (executeEmailAutomation W a ce) 3 reported none /\
  spec is_write (executeEmailAutomation W a ce) 0 reported none /\
  spec stray (executeEmailAutomation W a ce) 0 reported none.
Proof.
  unfold executeEmailAutomation, emailAttempt, recipient, check_sent.
  repeat split; handler_spec.
Qed.

Lemma meeting_calls W a ce :
  spec is_remote (executeMeetingFollowUpAutomation W a ce) 3 reported none /\
  spec is_write (executeMeetingFollowUpAutomation W a ce) 0 reported none /\
  spec stray (executeMeetingFollowUpAutomation W a ce) 0 reported none.
Proof.
  unfold executeMeetingFollowUpAutomation, meetingAttempt, recipient,
    check_sent.
  repeat split; handler_spec.
Qed.

Lemma summary_calls ctx up mt W a :
  spec is_remote (executeAIClientSummaryAutomation ctx up mt W a) 6
    reported none /\
  spec is_write (executeAIClientSummaryAutomation ctx up mt W a) 0
    reported none /\
  spec stray (executeAIClientSummaryAutomation ctx up mt W a) 0
    reported none.
Proof.
  unfold executeAIClientSummaryAutomation, summaryAttempt, listing.
  repeat split; handler_spec.
Qed.

Lemma simulated_email_calls W a ce :
  spec is_remote (Simulated.executeEmailAutomation W a ce) 0 reported none /\
  spec is_write (Simulated.executeEmailAutomation W a ce) 0 reported none /\
  spec stray (Simulated.executeEmailAutomation W a ce) 0 reported none.
Proof.
  unfold Simulated.executeEmailAutomation, Simulated.emailAttempt.
  repeat split; handler_spec.
Qed.

Lemma simulated_meeting_calls W a ce :
  spec is_remote (Simulated.executeMeetingFollowUpAutomation W a ce) 0
    reported none /\
  spec is_write (Simulated.executeMeetingFollowUpAutomation W a ce) 0
    reported none /\
  spec stray (Simulated.executeMeetingFollowUpAutomation W a ce) 0 reported none.
Proof.
  unfold Simulated.executeMeetingFollowUpAutomation, Simulated.meetingAttempt.
  repeat split; handler_spec.
Qed.

(** C5. Each per-type handler, in either copy of the executor, never
    throws to its caller: from every history and for every input it
    returns a result; what its [try] block returns it returns, and an
    error thrown inside the block comes back as a result with
    [success = false] whose message is the string of the error, or the
    handler's fixed fallback when that string is empty. *)
Theorem handlers_never_throw (T : templates) (W : world)
  (automation clientEmail : value) :
  catches (emailAttempt W automation clientEmail)
    (executeEmailAutomation W automation clientEmail)
    "Failed to send email" /\
  catches (meetingAttempt W automation clientEmail)
    (executeMeetingFollowUpAutomation W automation clientEmail)
    "Failed to send meeting follow-up email" /\
  catches (summaryAttempt (clientContext T) (userPrompt T) 500 W automation)
    (Src.executeAIClientSummaryAutomation T W automation)
    "Failed to generate AI summary" /\
  catches (Simulated.emailAttempt W automation clientEmail)
    (Simulated.executeEmailAutomation W automation clientEmail)
    "Failed to send email" /\
  catches (Simulated.meetingAttempt W automation clientEmail)
    (Simulated.executeMeetingFollowUpAutomation W automation clientEmail)
    "Failed to send meeting follow-up email" /\
  catches (summaryAttempt (clientContext T) (userPrompt T) 1500 W automation)
    (Frontend.executeAIClientSummaryAutomation T W automation)
    "Failed to generate AI summary".
Proof.
  split; [ | split; [ | split; [ | split; [ | split ] ] ] ].
  - eapply try_catches, (proj1 (email_calls W automation clientEmail)).
  - eapply try_catches, (proj1 (meeting_calls W automation clientEmail)).
  - eapply try_catches, (proj1 (summary_calls _ _ _ W automation)).
  - eapply try_catches,
      (proj1 (simulated_email_calls W automation clientEmail)).
  - eapply try_catches,
      (proj1 (simulated_meeting_calls W automation clientEmail)).
  - eapply try_catches, (proj1 (summary_calls _ _ _ W automation)).
Qed.

End Handlers.

(* ===================================================================== *)
(** * [executeAutomation] *)
(* ===================================================================== *)

Section Run.

Import Executor.

Lemma get_defined (a : value) (k : string) :
  a <> VUndefined -> a <> VNull -> get a k = inr (opt_get a k).
Proof.
  intros H1 H2. unfold opt_get. destruct a; try reflexivity; congruence.
Qed.

Lemma truthy_defined (a : value) :
  truthy a = true -> a <> VUndefined /\ a <> VNull.
Proof. destruct a; simpl; intros H; split; congruence. Qed.

Lemma enabled_defined (a : value) :
  enabled a = true -> a <> VUndefined /\ a <> VNull.
Proof. intros H; split; intros ->; discriminate H. Qed.

Variable emailHandler meetingHandler
  : world -> value -> value -> M AutomationExecutionResult.
Variable summaryHandler : world -> value -> M AutomationExecutionResult.

Let run := executeAutomation emailHandler meetingHandler summaryHandler.
Let switch := dispatch emailHandler meetingHandler summaryHandler.

(** C9. An automation whose [is_enabled] and [is_active] are both falsy
    is answered at once with [success = false] and the message
    "Automation is disabled": the history is left as it was, so no row
    is inserted and no request of any kind is issued, and the answer is
    the same whatever the three handlers are, so none of them runs. *)
Theorem disabled_automation_is_inert W a opts h en ac :
  get a "is_enabled" = inr en -> get a "is_active" = inr ac ->
  truthy en = false -> truthy ac = false ->
  executeAutomation emailHandler meetingHandler summaryHandler W a opts h
  = (h, inr (failure "Automation is disabled")).
Proof.
  intros Hen Hac Ten Tac. unfold executeAutomation, bind, lift.
  rewrite Hen, Hac, Ten, Tac. reflexivity.
Qed.

(** The [switch] of an automation that is an object. *)
Lemma dispatch_switch W a opts h :
  a <> VUndefined -> a <> VNull ->
  switch W a opts h =
  (if is_str (kind_of a) "email" then
     emailHandler W a (opt_get opts "clientEmail")
   else if is_str (kind_of a) "meeting" then
     meetingHandler W a (opt_get opts "clientEmail")
   else if is_str (kind_of a) "ai-summary" then summaryHandler W a
   else ret (mk_result false
               (VStr ("Unknown automation type: " ++ to_string (kind_of a)))
               VUndefined)) h.
Proof.
  intros Hu Hn. unfold switch, dispatch, bind, lift.
  now rewrite !(get_defined a _ Hu Hn).
Qed.

(** A run of an enabled automation against a backend that answers: the
    insert, what the handler does, and the update when a row came back. *)
Lemma run_enabled W a opts r htr result :
  enabled a = true ->
  postgrest W [] (opening W a []) = Fulfilled r ->
  unanswered r = false ->
  switch W a opts [Db (opening W a [])]
    = ([Db (opening W a [])] ++ htr, inr result) ->
  (forall q, exists r',
      postgrest W ([Db (opening W a [])] ++ htr) q = Fulfilled r') ->
  run W a opts []
  = ([Db (opening W a [])] ++ htr ++
       (if truthy (data r)
        then [Db (closing W a (data r) result ([Db (opening W a [])] ++ htr))]
        else []),
     inr result).
Proof.
  intros Hen Hins Hrow Hsw Hupd.
  destruct (enabled_defined a Hen) as [Hu Hn].
  unfold run, executeAutomation.
  unfold bind at 1. unfold lift at 1. rewrite (get_defined a _ Hu Hn).
  unfold bind at 1. unfold lift at 1. rewrite (get_defined a _ Hu Hn).
  unfold enabled in Hen.
  replace (negb (truthy (opt_get a "is_enabled"))
           && negb (truthy (opt_get a "is_active"))) with false
    by (destruct (truthy (opt_get a "is_enabled")),
                 (truthy (opt_get a "is_active")); simpl in *; congruence).
  unfold bind at 1. unfold lift at 1. rewrite (get_defined a _ Hu Hn).
  unfold bind at 1. unfold lift at 1. rewrite (get_defined a _ Hu Hn).
  unfold bind at 1. unfold now at 1.
  unfold bind at 1. unfold query at 1, await. fold (opening W a []).
  rewrite Hins. simpl app.
  unfold bind at 1.
  assert (Hlog :
    (if truthy (error r) then ret tt
     else bind (lift (get (data r) "id")) (fun _ => ret tt))
      [Db (opening W a [])]
    = ([Db (opening W a [])], inr tt)).
  { destruct (truthy (error r)) eqn:Herr; [reflexivity | ].
    assert (Hd : data r <> VUndefined /\ data r <> VNull).
    { unfold unanswered in Hrow. rewrite Herr in Hrow.
      destruct (data r); try discriminate Hrow; split; discriminate. }
    destruct Hd as [Hdu Hdn].
    unfold bind, lift. rewrite (get_defined _ _ Hdu Hdn). reflexivity. }
  rewrite Hlog.
  unfold try_catch. unfold bind at 1. fold switch. rewrite Hsw.
  unfold complete_run.
  destruct (truthy (data r)) eqn:Hrun.
  - destruct (truthy_defined _ Hrun) as [Hdu Hdn].
    unfold bind at 1. unfold bind at 1. unfold now at 1.
    unfold bind at 1. unfold lift at 1. rewrite (get_defined _ _ Hdu Hdn).
    unfold bind at 1. unfold query, await.
    fold (closing W a (data r) result ([Db (opening W a [])] ++ htr)).
    destruct (Hupd (closing W a (data r) result
                      ([Db (opening W a [])] ++ htr))) as [r' Hr'].
    rewrite Hr'. unfold ret. rewrite <- app_assoc. reflexivity.
  - unfold bind, ret. rewrite app_nil_r. reflexivity.
Qed.

(** A run whose insert is answered with neither an error nor a row:
    the log line throws, and nothing follows the insert. *)
Lemma run_unanswered W a opts r :
  enabled a = true ->
  postgrest W [] (opening W a []) = Fulfilled r ->
  unanswered r = true ->
  exists e,
    exn_name e = "TypeError" /\
    run W a opts [] = ([Db (opening W a [])], inl e).
Proof.
  intros Hen Hins Hrow.
  destruct (enabled_defined a Hen) as [Hu Hn].
  unfold unanswered in Hrow. apply andb_true_iff in Hrow.
  destruct Hrow as [Herr Hdata]. apply negb_true_iff in Herr.
  assert (Hget : exists e, get (data r) "id" = inl e /\
                           exn_name e = "TypeError").
  { destruct (data r); try discriminate Hdata; eexists; split; reflexivity. }
  destruct Hget as (e & Hget & Hname). exists e. split; [exact Hname | ].
  unfold run, executeAutomation.
  unfold bind at 1. unfold lift at 1. rewrite (get_defined a _ Hu Hn).
  unfold bind at 1. unfold lift at 1. rewrite (get_defined a _ Hu Hn).
  unfold enabled in Hen.
  replace (negb (truthy (opt_get a "is_enabled"))
           && negb (truthy (opt_get a "is_active"))) with false
    by (destruct (truthy (opt_get a "is_enabled")),
                 (truthy (opt_get a "is_active")); simpl in *; congruence).
  unfold bind at 1. unfold lift at 1. rewrite (get_defined a _ Hu Hn).
  unfold bind at 1. unfold lift at 1. rewrite (get_defined a _ Hu Hn).
  unfold bind at 1. unfold now at 1.
  unfold bind at 1. unfold query at 1, await. fold (opening W a []).
  rewrite Hins. simpl app.
  unfold bind at 1. rewrite Herr.
  unfold bind at 1. unfold lift at 1. rewrite Hget. reflexivity.
Qed.

End Run.

Section Copies.

Import Executor.

Lemma count_is_zero (c : request -> bool) (t : trace) :
  count c t = 0%nat -> Forall (fun r => c r = false) t.
Proof.
  unfold count. induction t as [ | r t IH]; simpl; intros H.
  - constructor.
  - destruct (c r) eqn:Hc; [discriminate H | ].
    constructor; auto.
Qed.


Lemma reads_update_no_run (t : trace) :
  count is_write t = 0%nat -> count is_run_update t = 0%nat.
Proof.
  intros H. apply count_is_zero in H. unfold count.
  induction H as [ | r t Hr _ IH]; simpl; [reflexivity | ].
  replace (is_run_update r) with false; [exact IH | ].
  destruct r as [q | | | | ]; try reflexivity.
  unfold is_write in Hr. unfold is_run_update.
  destruct (verb q); try discriminate Hr. now rewrite andb_false_r.
Qed.

(** What the [switch] of either copy does for an automation that is an
    object: it returns a result, has written nothing, and in [src/lib]
    it has taken no more remote calls than the budget leaves. *)
Lemma dispatch_facts (k : copy) T W a opts h :
  a <> VUndefined -> a <> VNull ->
  exists htr result,
    dispatch_of k T W a opts h = (h ++ htr, inr result) /\
    (count is_write htr = 0%nat /\
     Forall (fun r => handler_call r = true) htr) /\
    reported result /\
    (k = SrcLib -> (count is_remote htr + 2 <= budget (kind_of a))%nat).
Proof.
  intros Hu Hn.
  assert (Hpick : forall (m : M AutomationExecutionResult) n,
    spec is_remote m n reported none /\ spec is_write m 0 reported none /\
    spec stray m 0 reported none ->
    exists htr result,
      m h = (h ++ htr, inr result) /\
      (count is_write htr = 0%nat /\
       Forall (fun r => handler_call r = true) htr) /\
      reported result /\ (count is_remote htr <= n)%nat).
  { intros m n (Hr & Hw & Hs).
    destruct (Hw h) as (tr & r & E1 & L1 & R1).
    destruct (Hr h) as (tr' & r' & E2 & L2 & _).
    destruct (Hs h) as (tr'' & r'' & E3 & L3 & _).
    rewrite E1 in E2, E3.
    injection E2 as E2 _. apply app_inv_head in E2. subst tr'.
    injection E3 as E3 _. apply app_inv_head in E3. subst tr''.
    destruct r as [e | result]; [destruct R1 | ].
    exists tr, result. repeat split; auto; try lia.
    assert (Hz : count stray tr = 0%nat) by lia.
    apply count_is_zero in Hz. revert Hz. apply Forall_impl.
    intros q Hq. now apply negb_false_iff in Hq. }
  unfold budget.
  destruct k; unfold dispatch_of;
    rewrite (dispatch_switch _ _ _ W a opts h Hu Hn).
  - destruct (is_str (kind_of a) "email") eqn:He; simpl.
    { destruct (Hpick _ _ (email_calls W a (opt_get opts "clientEmail")))
        as (htr & result & E & Hw & Hrep & Hrem).
      exists htr, result.
      split; [ exact E | split; [ exact Hw | split; [ exact Hrep | ] ] ].
      intros _. lia. }
    destruct (is_str (kind_of a) "meeting") eqn:Hm; simpl.
    { destruct (Hpick _ _ (meeting_calls W a (opt_get opts "clientEmail")))
        as (htr & result & E & Hw & Hrep & Hrem).
      exists htr, result.
      split; [ exact E | split; [ exact Hw | split; [ exact Hrep | ] ] ].
      intros _. lia. }
    destruct (is_str (kind_of a) "ai-summary") eqn:Hs; simpl.
    { destruct (Hpick _ _ (summary_calls (clientContext T) (userPrompt T)
                             500 W a))
        as (htr & result & E & Hw & Hrep & Hrem).
      exists htr, result.
      split; [ exact E | split; [ exact Hw | split; [ exact Hrep | ] ] ].
      intros _. lia. }
    eexists [], _. rewrite app_nil_r.
    split; [ reflexivity | split; [ now split | split ] ].
    + apply unknown_reported.
    + intros _. simpl. lia.
  - destruct (is_str (kind_of a) "email") eqn:He; simpl.
    { destruct (Hpick _ _ (simulated_email_calls W a
                             (opt_get opts "clientEmail")))
        as (htr & result & E & Hw & Hrep & Hrem).
      exists htr, result.
      split; [ exact E | split; [ exact Hw | split; [ exact Hrep | ] ] ].
      intros Hk; discriminate Hk. }
    destruct (is_str (kind_of a) "meeting") eqn:Hm; simpl.
    { destruct (Hpick _ _ (simulated_meeting_calls W a
                             (opt_get opts "clientEmail")))
        as (htr & result & E & Hw & Hrep & Hrem).
      exists htr, result.
      split; [ exact E | split; [ exact Hw | split; [ exact Hrep | ] ] ].
      intros Hk; discriminate Hk. }
    destruct (is_str (kind_of a) "ai-summary") eqn:Hs; simpl.
    { destruct (Hpick _ _ (summary_calls (clientContext T) (userPrompt T)
                             1500 W a))
        as (htr & result & E & Hw & Hrep & Hrem).
      exists htr, result.
      split; [ exact E | split; [ exact Hw | split; [ exact Hrep | ] ] ].
      intros Hk; discriminate Hk. }
    eexists [], _. rewrite app_nil_r.
    split; [ reflexivity | split; [ now split | split ] ].
    + apply unknown_reported.
    + intros Hk; discriminate Hk.
Qed.

End Copies.

Section Lifecycle.

Import Executor Scenario.

(** The whole run of either copy for an enabled automation, against a
    backend that answers every query. *)
Lemma run_of_copy (k : copy) T W a opts :
  answers W -> enabled a = true ->
  exists r,
    postgrest W [] (opening W a []) = Fulfilled r /\
    if unanswered r then
      exists e,
        exn_name e = "TypeError" /\
        executeAutomation_of k T W a opts [] = ([Db (opening W a [])], inl e)
    else
      exists htr result,
        dispatch_of k T W a opts [Db (opening W a [])]
          = ([Db (opening W a [])] ++ htr, inr result) /\
        (count is_write htr = 0%nat /\
         Forall (fun r => handler_call r = true) htr) /\
        reported result /\
        (k = SrcLib -> (count is_remote htr + 2 <= budget (kind_of a))%nat) /\
        executeAutomation_of k T W a opts []
        = ([Db (opening W a [])] ++ htr ++
             (if truthy (data r)
              then [Db (closing W a (data r) result
                          ([Db (opening W a [])] ++ htr))]
              else []),
           inr result).
Proof.
  intros HW Hen.
  destruct (enabled_defined a Hen) as [Hu Hn].
  destruct (HW [] (opening W a [])) as (r & Hr).
  exists r. split; [exact Hr | ].
  destruct (unanswered r) eqn:Hrow.
  - destruct k; unfold executeAutomation_of, Src.executeAutomation,
      Frontend.executeAutomation;
      apply (run_unanswered _ _ _ W a opts r); auto.
  - destruct (dispatch_facts k T W a opts [Db (opening W a [])] Hu Hn)
      as (htr & result & Hd & [Hw Hcalls] & Hrep & Hrem).
    exists htr, result. repeat split; auto.
    destruct k; unfold executeAutomation_of, Src.executeAutomation,
      Frontend.executeAutomation;
      apply run_enabled; auto.
Qed.

Lemma contract_answers W : postgrest_contract W -> answers W.
Proof. intros HW h q. destruct (HW h q) as (r & Hr & _). now exists r. Qed.

Lemma calm_contract : postgrest_contract calm.
Proof.
  intros h q. exists (db_ok q). split; [reflexivity | ].
  intros Hs _. unfold db_ok. rewrite Hs. now destruct (verb q).
Qed.

Lemma denied_contract : postgrest_contract denied.
Proof.
  intros h q. exists (db_denied q). split; [reflexivity | ].
  intros Hs. unfold db_denied, db_ok. rewrite Hs.
  destruct (verb q); simpl; intros H; try reflexivity; discriminate H.
Qed.


(** C1, as amended. For every enabled automation, against a backend
    that answers every query with a result rather than an exception,
    either copy of [executeAutomation] first issues the insert into
    [automation_runs] with status "running".  When the insert is
    answered with neither an error nor a row, the call throws a
    [TypeError] right after it: no handler runs and the run is never
    updated.  Otherwise the handler runs once, and writes nothing; then,
    when the insert came back with a row, exactly one update of that
    row is issued, with status "completed" when the handler reported
    success and "failed" otherwise, and the result of the handler is
    returned; when it came back without a row the handler has run all
    the same and no update is issued.  The history of a call starts
    empty. *)
Theorem run_row_lifecycle (k : copy) T W a opts :
  answers W -> enabled a = true ->
  exists r,
    postgrest W [] (opening W a []) = Fulfilled r /\
    run_statuses [Db (opening W a [])] = [VStr "running"] /\
    if unanswered r then
      exists e,
        exn_name e = "TypeError" /\
        executeAutomation_of k T W a opts [] = ([Db (opening W a [])], inl e)
    else
      exists htr result,
        dispatch_of k T W a opts [Db (opening W a [])]
          = ([Db (opening W a [])] ++ htr, inr result) /\
        executeAutomation_of k T W a opts []
        = ([Db (opening W a [])] ++ htr ++
             (if truthy (data r)
              then [Db (closing W a (data r) result
                          ([Db (opening W a [])] ++ htr))]
              else []),
           inr result) /\
        writes htr = 0%nat /\
        count is_run_update (fst (executeAutomation_of k T W a opts []))
          = (if truthy (data r) then 1 else 0)%nat /\
        run_statuses [Db (closing W a (data r) result
                            ([Db (opening W a [])] ++ htr))]
          = [VStr (if success result then "completed" else "failed")].
Proof.
  intros HW Hen.
  destruct (run_of_copy k T W a opts HW Hen) as (r & Hr & Hrun).
  exists r. split; [exact Hr | ]. split; [reflexivity | ].
  destruct (unanswered r); [exact Hrun | ].
  destruct Hrun as (htr & result & Hd & [Hw _] & _ & _ & Hrun).
  exists htr, result.
  pose proof (reads_update_no_run htr Hw) as Hnone.
  split; [exact Hd | ]. split; [exact Hrun | ]. split; [exact Hw | ].
  split.
  - rewrite Hrun. cbn [fst]. rewrite !count_app, Hnone.
    destruct (truthy (data r)); reflexivity.
  - unfold closing, run_update, updateData, status_of. simpl.
    destruct (success result); simpl;
      [ destruct (truthy (payload result)
                  && (is_str (opt_get a "action_type_type") "ai-summary"
                      || is_str (opt_get a "action_type") "ai-summary"))
      | ]; reflexivity.
Qed.

(** At the mail automation of the calm world. *)
Lemma run_row_lifecycle_witness :
  exists r,
    postgrest calm [] (opening calm mail []) = Fulfilled r /\
    run_statuses [Db (opening calm mail [])] = [VStr "running"] /\
    if unanswered r then
      exists e,
        exn_name e = "TypeError" /\
        executeAutomation_of SrcLib plain calm mail VUndefined []
        = ([Db (opening calm mail [])], inl e)
    else
      exists htr result,
        dispatch_of SrcLib plain calm mail VUndefined
          [Db (opening calm mail [])]
          = ([Db (opening calm mail [])] ++ htr, inr result) /\
        executeAutomation_of SrcLib plain calm mail VUndefined []
        = ([Db (opening calm mail [])] ++ htr ++
             (if truthy (data r)
              then [Db (closing calm mail (data r) result
                          ([Db (opening calm mail [])] ++ htr))]
              else []),
           inr result) /\
        writes htr = 0%nat /\
        count is_run_update
          (fst (executeAutomation_of SrcLib plain calm mail VUndefined []))
          = (if truthy (data r) then 1 else 0)%nat /\
        run_statuses [Db (closing calm mail (data r) result
                            ([Db (opening calm mail [])] ++ htr))]
          = [VStr (if success result then "completed" else "failed")].
Proof.
  apply (run_row_lifecycle SrcLib plain calm mail VUndefined);
    [ apply contract_answers, calm_contract | reflexivity ].
Defined.

(** C1 as stated fails where the insert is refused, by a backend that
    keeps its promise all the same: the automation is enabled, the mail
    is sent, and the run is never updated. *)
Lemma refused_insert_leaves_no_update :
  postgrest_contract denied /\
  enabled mail = true /\
  fst (Src.executeAutomation plain denied mail VUndefined [])
  = [Db (opening denied mail []);
     Db (eq_filter "clients" "email, client_id" "client_id" (VStr "c1"));
     AuthGetSession;
     FunctionsInvoke "send-email"
       (VObj [("to", VStr "ann@example.com"); ("subject", VStr "Weekly note");
              ("html", VStr "Hello"); ("text", VStr "Hello")])] /\
  count is_run_update
    (fst (Src.executeAutomation plain denied mail VUndefined [])) = 0%nat.
Proof.
  split; [ apply denied_contract | ]. vm_compute. repeat split.
Qed.

(** An insert answered with neither an error nor a row: the call throws
    where it logs the id of the run, and the mail is not sent. *)
Example rowless_insert_throws :
  answers mute /\
  Src.executeAutomation plain mute mail VUndefined []
  = ([Db (opening mute mail [])],
     inl (TypeError "Cannot read properties of null (reading 'id')")).
Proof. split; [ intros h q; now eexists | reflexivity ]. Qed.

(** A lookup of the client answered with neither an error nor a row is
    a failure of the handler like any other: the run is closed as
    "failed". *)
Example missing_client_fails_the_run :
  answers lost /\
  Src.executeAutomation plain lost mail VUndefined []
  = ([Db (opening lost mail []);
      Db (eq_filter "clients" "email, client_id" "client_id" (VStr "c1"));
      Db (run_update (VStr "run-1")
            (VObj [("automation_status", VStr "failed");
                   ("error_message",
                    VStr "Client not found: Unknown error");
                   ("finished_at", VStr "2")]))],
     inr (failure "Client not found: Unknown error")).
Proof. split; [ intros h q; now eexists | reflexivity ]. Qed.

End Lifecycle.

Section Inert.

Import Executor Scenario.

(** At the paused automation, with the handlers of [src/lib]. *)
Lemma disabled_automation_is_inert_witness :
  Src.executeAutomation plain calm paused VUndefined []
  = ([], inr (failure "Automation is disabled")).
Proof.
  apply (disabled_automation_is_inert
           executeEmailAutomation executeMeetingFollowUpAutomation
           (Src.executeAIClientSummaryAutomation plain)
           calm paused VUndefined [] (VBool false) VNull);
    reflexivity.
Defined.

End Inert.

Section States.

Import Executor Scenario.









(** C4, as amended. For every enabled automation, against a backend
    that answers every query with a result rather than an exception:
    when the handler reports a failure either copy returns that very
    result, whose message is a string, after the insert and one run of
    the handler; when the insert had come back with a row it then
    issues one update of that row with status "failed" and the message
    as [error_message], and nothing else; when it had come back without
    a row, nothing is written at all.  The one failure that is thrown
    is that of an insert answered with neither an error nor a row: the
    call throws a [TypeError] right after the insert, the handler does
    not run and nothing is recorded. *)
Theorem failure_sets_error_string (k : copy) T W a opts :
  answers W -> enabled a = true ->
  exists r,
    postgrest W [] (opening W a []) = Fulfilled r /\
    if unanswered r then
      exists e,
        exn_name e = "TypeError" /\
        executeAutomation_of k T W a opts [] = ([Db (opening W a [])], inl e)
    else
      exists htr result,
        dispatch_of k T W a opts [Db (opening W a [])]
          = ([Db (opening W a [])] ++ htr, inr result) /\
        (success result = false ->
         (exists s, message result = VStr s) /\
         executeAutomation_of k T W a opts []
         = ([Db (opening W a [])] ++ htr ++
              (if truthy (data r)
               then [Db (run_update (opt_get (data r) "id")
                           (VObj [("automation_status", VStr "failed");
                                  ("error_message", message result);
                                  ("finished_at",
                                   VStr (toISOString W
                                           (now_ms W ([Db (opening W a [])]
                                                      ++ htr))))]))]
               else []),
            inr result)).
Proof.
  intros HW Hen.
  destruct (run_of_copy k T W a opts HW Hen) as (r & Hr & Hrun).
  exists r. split; [exact Hr | ].
  destruct (unanswered r); [exact Hrun | ].
  destruct Hrun as (htr & result & Hd & [Hw _] & Hrep & _ & Hrun).
  exists htr, result. split; [exact Hd | ].
  intros Hfail. split; [exact (Hrep Hfail) | ].
  rewrite Hrun. unfold closing, updateData, status_of. rewrite Hfail.
  reflexivity.
Qed.

(** At the mail automation without a message, in the calm world. *)
Lemma failure_sets_error_string_witness :
  exists r,
    postgrest calm [] (opening calm blank_mail []) = Fulfilled r /\
    if unanswered r then
      exists e,
        exn_name e = "TypeError" /\
        executeAutomation_of FrontendLib plain calm blank_mail VUndefined []
        = ([Db (opening calm blank_mail [])], inl e)
    else
      exists htr result,
        dispatch_of FrontendLib plain calm blank_mail VUndefined
          [Db (opening calm blank_mail [])]
          = ([Db (opening calm blank_mail [])] ++ htr, inr result) /\
        (success result = false ->
         (exists s, message result = VStr s) /\
         executeAutomation_of FrontendLib plain calm blank_mail VUndefined []
         = ([Db (opening calm blank_mail [])] ++ htr ++
              (if truthy (data r)
               then [Db (run_update (opt_get (data r) "id")
                           (VObj [("automation_status", VStr "failed");
                                  ("error_message", message result);
                                  ("finished_at",
                                   VStr (toISOString calm
                                           (now_ms calm
                                              ([Db (opening calm blank_mail [])]
                                               ++ htr))))]))]
               else []),
            inr result)).
Proof.
  apply (failure_sets_error_string FrontendLib plain calm blank_mail
           VUndefined);
    [ apply contract_answers, calm_contract | reflexivity ].
Defined.

(** C4 as stated fails where the insert is refused, by a backend that
    keeps its promise all the same: the meeting automation without
    content fails, the failure is returned, and no row is updated with
    it. *)
Lemma refused_insert_loses_the_error :
  postgrest_contract denied /\
  enabled blank_meeting = true /\
  Src.executeAutomation plain denied blank_meeting VUndefined []
  = ([Db (opening denied blank_meeting [])],
     inr (failure "Meeting name and email content are required")) /\
  count is_run_update
    (fst (Src.executeAutomation plain denied blank_meeting VUndefined []))
  = 0%nat.
Proof.
  split; [ apply denied_contract | ]. vm_compute. repeat split.
Qed.

(** In the older copy a mail dated ahead is only announced: the run is
    closed as "completed" and nothing was sent. *)
Example scheduled_mail_completes :
  Frontend.executeAutomation plain early dated_mail VUndefined []
  = ([Db (opening early dated_mail []);
      Db (run_update (VStr "run-1")
            (VObj [("automation_status", VStr "completed");
                   ("error_message", VNull);
                   ("finished_at", VStr "1")]))],
     inr (mk_result true (VStr "Email scheduled for 1000")
            (VObj [("scheduled", VBool true);
                   ("sendDate", VStr "2030-01-01T09:00")]))).
Proof. reflexivity. Qed.

End States.

(* ===================================================================== *)
(** * The hooks *)
(* ===================================================================== *)

Section Clients.

Import Hooks.

Lemma lookup_set_same k v (f : row) : lookup (set k v f) k = v.
Proof.
  induction f as [ | [k' v'] f IH]; simpl.
  - now rewrite String.eqb_refl.
  - destruct (String.eqb_spec k' k) as [-> | Hne]; simpl.
    + now rewrite String.eqb_refl.
    + destruct (String.eqb_spec k' k); [contradiction | exact IH].
Qed.

Lemma lookup_set_other k k' v (f : row) :
  k' <> k -> lookup (set k v f) k' = lookup f k'.
Proof.
  intros Hne. induction f as [ | [k0 v0] f IH]; simpl.
  - destruct (String.eqb_spec k k'); [congruence | reflexivity].
  - destruct (String.eqb_spec k0 k) as [-> | Hk]; simpl.
    + destruct (String.eqb_spec k k'); [congruence | reflexivity].
    + destruct (String.eqb_spec k0 k'); [reflexivity | exact IH].
Qed.

(** The mapping of a row that is an object. *)
Lemma mapClient_row (r : row) :
  exists o, mapClient (VObj r) = inr (VObj o) /\ fallbacks r o.
Proof.
  eexists. split; [reflexivity | ].
  unfold fallbacks, extend, spread, opt_get. simpl.
  repeat split.
  - rewrite !lookup_set_other by discriminate. apply lookup_set_same.
  - rewrite lookup_set_other by discriminate. apply lookup_set_same.
  - apply lookup_set_same.
  - intros k H1 H2 H3. now rewrite !lookup_set_other by congruence.
Qed.

Lemma map_rows_objects (rows : list row) :
  exists out,
    map_rows mapClient (VArr (List.map VObj rows))
      = inr (VArr (List.map VObj out)) /\
    Forall2 fallbacks rows out.
Proof.
  unfold map_rows. simpl.
  induction rows as [ | r rows (out & E & F)].
  - exists []. split; [reflexivity | constructor].
  - destruct (mapClient_row r) as (o & Eo & Fo).
    exists (o :: out). split; [ | now constructor].
    cbn [List.map fold_right]. rewrite Eo, E. reflexivity.
Qed.

(** C6, as amended. For the rows the query of [clients] returns,
    [useClients] produces a list of the same length in which every
    record stands for its row with the three fallbacks applied, each
    taking the first column that is truthy, which is to say neither
    missing nor [null] nor an empty string nor [0] nor [false]: [id] is
    the row's [client_id] when that is truthy and the row's [id]
    otherwise, [source] the row's [source] when truthy, else its
    [lead_source] when truthy, else [null], [status] the row's
    [priority] when truthy, else its [status] when truthy, else [null];
    all other fields are those of the row. *)
Theorem clients_fallbacks W user h (rows : list row) err :
  truthy (opt_get user "id") = true ->
  postgrest W h (clients_query (opt_get user "id"))
    = Fulfilled (mk_response (VArr (List.map VObj rows)) err) ->
  truthy err = false ->
  exists out,
    useClients W user h
    = (h ++ [Db (clients_query (opt_get user "id"))],
       inr (VArr (List.map VObj out))) /\
    Forall2 fallbacks rows out.
Proof.
  intros Hid Hq Herr.
  destruct (map_rows_objects rows) as (out & E & F).
  exists out. split; [ | exact F].
  unfold useClients. rewrite Hid. cbn [negb].
  unfold bind, query, await. rewrite Hq. cbn [data error].
  rewrite Herr. unfold when, ret, lift. now rewrite E.
Qed.

End Clients.

Section ClientsWitness.

Import Hooks Scenario.

(** At two rows of the older and of the newer shape. *)
Lemma clients_fallbacks_witness :
  exists out,
    useClients legacy (VObj [("id", VStr "u1")]) []
    = ([] ++ [Db (clients_query (opt_get (VObj [("id", VStr "u1")]) "id"))],
       inr (VArr (List.map VObj out))) /\
    Forall2 fallbacks legacy_rows out.
Proof.
  apply (clients_fallbacks legacy (VObj [("id", VStr "u1")]) []
           legacy_rows VNull); reflexivity.
Defined.

(** C6 as stated fails at a column that is present and empty: the
    second of the two rows has the [source] "", and the record made of
    it has the [source] [null]; the first has both a [priority] and a
    [status], and there the claim holds. *)
Lemma empty_source_is_dropped :
  exists first second,
    snd (useClients legacy (VObj [("id", VStr "u1")]) [])
    = inr (VArr [VObj first; VObj second]) /\
    lookup (List.nth 1 legacy_rows []) "source" = VStr "" /\
    lookup second "source" = VNull /\
    lookup (List.nth 0 legacy_rows []) "priority" = VStr "high" /\
    lookup first "status" = VStr "high".
Proof. do 2 eexists. repeat split. Qed.

End ClientsWitness.

Section Writes.

Import Executor Hooks Operations Scenario.





End Writes.

(* ===================================================================== *)
(** * Rules for reasoning backwards *)
(* ===================================================================== *)

Section WpRules.

Context {A B : Type}.

Lemma wp_ret (a : A) post h : post h (inr a) -> wp (ret a) post h.
Proof. exact (fun H => H). Qed.

Lemma wp_throw (e : exn) (post : trace -> exn + A -> Prop) h :
  post h (inl e) -> wp (throw e) post h.
Proof. exact (fun H => H). Qed.

Lemma wp_lift (r : exn + A) post h : post h r -> wp (lift r) post h.
Proof. exact (fun H => H). Qed.

Lemma wp_bind (m : M A) (f : A -> M B) post h :
  wp m (fun h' r => match r with
                    | inl e => post h' (inl e)
                    | inr a => wp (f a) post h'
                    end) h ->
  wp (bind m f) post h.
Proof.
  unfold wp, bind. destruct (m h) as [h' [e | a]]; simpl; auto.
Qed.

Lemma wp_try (m : M A) (k : exn -> M A) post h :
  wp m (fun h' r => match r with
                    | inl e => wp (k e) post h'
                    | inr a => post h' (inr a)
                    end) h ->
  wp (try_catch m k) post h.
Proof.
  unfold wp, try_catch. destruct (m h) as [h' [e | a]]; simpl; auto.
Qed.

Lemma wp_if (b : bool) (m1 m2 : M A) post h :
  (b = true -> wp m1 post h) -> (b = false -> wp m2 post h) ->
  wp (if b then m1 else m2) post h.
Proof. intros H1 H2. destruct b; [apply H1 | apply H2]; reflexivity. Qed.

Lemma wp_await (req : request) (answer : trace -> settled A) post h :
  (forall a, answer h = Fulfilled a -> post (h ++ [req]) (inr a)) ->
  (forall e, answer h = Rejected e -> post (h ++ [req]) (inl e)) ->
  wp (await req answer) post h.
Proof.
  unfold wp, await. intros H1 H2. destruct (answer h); simpl; auto.
Qed.

Lemma wp_settle (p : settled A) post h :
  (forall a, p = Fulfilled a -> post h (inr a)) ->
  (forall e, p = Rejected e -> post h (inl e)) ->
  wp (settle p) post h.
Proof.
  unfold wp, settle, lift. intros H1 H2. destruct p; simpl; auto.
Qed.

(** What a derivation gives of a run. *)
Lemma wp_run (m : M A) post h h' r :
  wp m post h -> m h = (h', r) -> post h' r.
Proof. unfold wp. intros H E. now rewrite E in H. Qed.

End WpRules.

Lemma wp_when (b : bool) (e : exn) post h :
  (b = true -> post h (inl e)) -> (b = false -> post h (inr tt)) ->
  wp (when b e) post h.
Proof.
  intros H1 H2. unfold when. destruct b; [apply H1 | apply H2]; reflexivity.
Qed.

Lemma wp_now W post h :
  post h (inr (toISOString W (now_ms W h))) -> wp (now W) post h.
Proof. exact (fun H => H). Qed.

Lemma wp_getTime W post h :
  post h (inr (now_ms W h)) -> wp (getTime W) post h.
Proof. exact (fun H => H). Qed.

Lemma wp_sleep ms post h :
  post (h ++ [Sleep ms]) (inr tt) -> wp (sleep ms) post h.
Proof. exact (fun H => H). Qed.

Lemma get_truthy v k : truthy v = true -> get v k = inr (opt_get v k).
Proof. intros H. apply get_defined; intros ->; discriminate H. Qed.

Lemma or_object_truthy c : truthy (c ||| VObj []) = true.
Proof. unfold or_. destruct (truthy c) eqn:E; auto. Qed.

Lemma truthy_or_empty v : truthy (v ||| VStr "") = truthy v.
Proof. unfold or_. destruct (truthy v) eqn:E; auto. Qed.

(** One step backwards.  A property read from a value that is known to
    be an object is rewritten, any other local step is split in two. *)
Ltac wp_step :=
  cbv beta zeta;
  lazymatch goal with
  | |- wp (bind _ _) _ _ => apply wp_bind
  | |- wp (try_catch _ _) _ _ => apply wp_try
  | |- wp (when _ _) _ _ => apply wp_when; intros ?
  | |- wp (if _ then _ else _) _ _ => apply wp_if; intros ?
  | |- wp (ret _) _ _ => apply wp_ret
  | |- wp (throw _) _ _ => apply wp_throw
  | |- wp (lift (get ?v ?k)) _ _ =>
      first
        [ rewrite (get_truthy v k) by
            first [ assumption | apply or_object_truthy ];
          apply wp_lift
        | rewrite (get_defined v k) by assumption; apply wp_lift
        | apply wp_lift; destruct (get v k) eqn:? ]
  | |- wp (lift ?r) _ _ => apply wp_lift; destruct r eqn:?
  | |- wp (settle _) _ _ => apply wp_settle; intros ? ?
  | |- wp (now _) _ _ => apply wp_now
  | |- wp (getTime _) _ _ => apply wp_getTime
  | |- wp (sleep _) _ _ => apply wp_sleep
  | |- wp (query _ _) _ _ => apply wp_await; intros ? ?
  | |- wp (getSession _) _ _ => apply wp_await; intros ? ?
  | |- wp (invoke _ _ _) _ _ => apply wp_await; intros ? ?
  | |- wp (fetch _ _) _ _ => apply wp_await; intros ? ?
  end.

(** Boolean facts of a branch, brought to [truthy _ = _]. *)
Ltac tidy :=
  repeat match goal with
  | H : negb _ = true |- _ => apply negb_true_iff in H
  | H : negb _ = false |- _ => apply negb_false_iff in H
  | H : _ && _ = true |- _ => apply andb_true_iff in H; destruct H
  | H : _ || _ = false |- _ => apply orb_false_iff in H; destruct H
  | H : truthy (_ ||| VStr "") = _ |- _ => rewrite truthy_or_empty in H
  end.

(* ===================================================================== *)
(** * The analyzer *)
(* ===================================================================== *)

Section Normalizers.

Import Analyzer.

Lemma spec_bind_post {A B} c (m : M A) (f : A -> M B) n1 n2
  (Q1 : A -> Prop) Q E :
  spec c m n1 Q1 E -> (forall a, Q1 a -> spec c (f a) n2 Q E) ->
  spec c (bind m f) (n1 + n2) Q E.
Proof.
  intros Hm Hf h. destruct (Hm h) as (tr1 & r1 & E1 & L1 & R1).
  unfold bind. rewrite E1. destruct r1 as [e | a].
  - exists tr1, (inl e). repeat split; auto. lia.
  - destruct (Hf a R1 (h ++ tr1)) as (tr2 & r2 & E2 & L2 & R2).
    exists (tr1 ++ tr2), r2. rewrite E2, app_assoc, count_app.
    repeat split; auto. lia.
Qed.

Lemma spec_on_string c (f : string -> string) member v :
  spec c (lift (on_string f member v)) 0 (fun s => exists x, s = f x) any.
Proof.
  intros h. exists [], (on_string f member v). rewrite app_nil_r.
  repeat split; auto.
  destruct v; simpl; try exact I. now exists s.
Qed.

Lemma normalizePriority_cases (s : string) :
  let n := trim (toLowerCase s) in
  In (normalizePriority s) ["low"; "medium"; "high"] /\
  (In n ["low"; "medium"; "high"] -> normalizePriority s = n) /\
  (~ In n ["low"; "medium"; "high"] -> normalizePriority s = "medium").
Proof.
  unfold normalizePriority. cbv zeta.
  destruct (String.eqb_spec (trim (toLowerCase s)) "low") as [-> | H1];
    [ simpl; intuition | ].
  destruct (String.eqb_spec (trim (toLowerCase s)) "medium") as [-> | H2];
    [ simpl; intuition | ].
  destruct (String.eqb_spec (trim (toLowerCase s)) "high") as [-> | H3];
    simpl; intuition congruence.
Qed.

Lemma normalizeSentiment_cases (s : string) :
  let n := trim (toLowerCase s) in
  In (normalizeSentiment s) ["low"; "mid"; "high"] /\
  (n = "medium" -> normalizeSentiment s = "mid") /\
  (In n ["low"; "mid"; "high"] -> normalizeSentiment s = n) /\
  (~ In n ["low"; "mid"; "medium"; "high"] -> normalizeSentiment s = "mid").
Proof.
  unfold normalizeSentiment. cbv zeta.
  destruct (String.eqb_spec (trim (toLowerCase s)) "low") as [-> | H1];
    [ simpl; intuition congruence | ].
  destruct (String.eqb_spec (trim (toLowerCase s)) "mid") as [-> | H2];
    [ simpl; intuition congruence | ].
  destruct (String.eqb_spec (trim (toLowerCase s)) "medium") as [-> | H3];
    [ simpl; intuition congruence | ].
  destruct (String.eqb_spec (trim (toLowerCase s)) "high") as [-> | H4];
    simpl; intuition congruence.
Qed.

Example normalizePriority_trims : normalizePriority "  HIGH " = "high".
Proof. reflexivity. Qed.

Example normalizePriority_default : normalizePriority "urgent" = "medium".
Proof. reflexivity. Qed.

Example normalizeSentiment_medium : normalizeSentiment " Medium" = "mid".
Proof. reflexivity. Qed.

Example normalizeSentiment_default : normalizeSentiment "" = "mid".
Proof. reflexivity. Qed.

(** A result whose two levels are normalized. *)
Let normalized (r : PDFAnalysisResult) : Prop :=
  In (priority r) ["low"; "medium"; "high"] /\
  In (sentiment r) ["low"; "mid"; "high"].

Ltac analysis_step :=
  cbv beta zeta;
  lazymatch goal with
  | |- spec _ (bind (lift (on_string _ _ _)) _) _ _ _ =>
      eapply spec_bind_post;
      [ apply spec_on_string | intros ? [? ->] ]
  | _ => spec_step
  end.

Lemma analysis_normalized JSON_parse prompt W key dataUrl what :
  spec is_remote (analysis JSON_parse prompt W key dataUrl what) 1
    normalized any.
Proof.
  unfold analysis. eapply spec_le.
  - repeat analysis_step; try exact I.
    split; [ apply normalizePriority_cases | apply normalizeSentiment_cases ].
  - vm_compute; lia.
Qed.

Lemma wp_conseq {A} (m : M A) (P Q : trace -> exn + A -> Prop) h :
  wp m P h -> (forall h' r, P h' r -> Q h' r) -> wp m Q h.
Proof. unfold wp. auto. Qed.





(** A run that returns: the model's words are lowered and trimmed. *)
Example image_is_analyzed :
  snd (analyzeImageWithOpenAI
         (fun _ => inr (VObj [("priority", VStr " HIGH");
                              ("sentiment", VStr "Medium");
                              ("keywordsCount", VNum 7)]))
         (fun _ => "Analyze this document.")
         Scenario.calm
         (mk_file (VStr "image/png") (Fulfilled "iVBORw0KGgo="))
         VUndefined [])
  = inr (mk_analysis "high" (VNum 7) "mid" (VStr "")).
Proof. reflexivity. Qed.

End Normalizers.

(* ===================================================================== *)
(** * The priority list *)
(* ===================================================================== *)

Section Priority.

Import Hooks Dashboard Scenario.

Lemma entry_priority deals c :
  lookup (entry deals c) "priority" = (lookup c "status" ||| VStr "medium").
Proof. unfold entry, extend. simpl. apply lookup_set_same. Qed.

Lemma entry_deals deals c :
  deals_count (entry deals c)
  = Z.of_nat (List.length (clientDeals deals c)).
Proof.
  unfold deals_count, entry, extend. simpl.
  rewrite lookup_set_other by discriminate.
  now rewrite lookup_set_same.
Qed.

(** The rank the comparator computes is the intended one as long as
    the priority is not an inherited name. *)
Lemma rank_plain e :
  plain_priority (lookup e "priority") = true ->
  rank_of (lookup e "priority") = Rank (priority_rank e).
Proof.
  unfold plain_priority, rank_of, priorityOrder, priority_rank.
  intros H. apply negb_true_iff in H.
  destruct (to_string (lookup e "priority") =? "high")%string;
    [reflexivity | ].
  destruct (to_string (lookup e "priority") =? "medium")%string eqn:Hm.
  - apply String.eqb_eq in Hm. rewrite Hm. reflexivity.
  - destruct (to_string (lookup e "priority") =? "low")%string;
      [reflexivity | ].
    now rewrite H.
Qed.

Lemma before_ordered a b :
  plain_priority (lookup a "priority") = true ->
  plain_priority (lookup b "priority") = true ->
  (before a b = true -> ordered a b) /\
  (before a b = false -> ordered b a).
Proof.
  intros Ha Hb. unfold before, compare, ordered.
  rewrite (rank_plain a Ha), (rank_plain b Hb). simpl.
  destruct (Z.eqb_spec (priority_rank b) (priority_rank a)) as [E | N];
    simpl; split; intros H.
  - apply Z.leb_le in H. right. split; [congruence | lia].
  - apply Z.leb_gt in H. right. split; [congruence | lia].
  - apply Z.leb_le in H. left. lia.
  - apply Z.leb_gt in H. left. lia.
Qed.

Lemma ordered_trans a b c : ordered a b -> ordered b c -> ordered a c.
Proof. unfold ordered. intros [H1 | [H1 H1']] [H2 | [H2 H2']]; lia. Qed.

Lemma insert_plain x l :
  plain_priority (lookup x "priority") = true ->
  Forall (fun e => plain_priority (lookup e "priority") = true) l ->
  Forall (fun e => plain_priority (lookup e "priority") = true) (insert x l).
Proof.
  intros Hx Hl. induction Hl as [ | y l Hy Hl IH]; simpl.
  - now constructor.
  - destruct (before x y); repeat constructor; auto.
Qed.

Lemma insert_sorted x l :
  plain_priority (lookup x "priority") = true ->
  Forall (fun e => plain_priority (lookup e "priority") = true) l ->
  Sorted ordered l -> Sorted ordered (insert x l).
Proof.
  intros Hx Hl Hs. induction Hs as [ | y l Hs IH Hhd]; simpl.
  - repeat constructor.
  - inversion Hl as [ | y' l' Hy Hl']; subst.
    destruct (before x y) eqn:Hb.
    + constructor; [now constructor | ].
      constructor. now apply (before_ordered x y Hx Hy).
    + constructor; [now apply IH | ].
      destruct l as [ | z l]; simpl.
      * constructor. now apply (before_ordered x y Hx Hy).
      * destruct (before x z); constructor.
        -- now apply (before_ordered x y Hx Hy).
        -- now inversion Hhd.
Qed.

Lemma sort_sorted l :
  Forall (fun e => plain_priority (lookup e "priority") = true) l ->
  Sorted ordered (sort l) /\
  Forall (fun e => plain_priority (lookup e "priority") = true) (sort l).
Proof.
  induction 1 as [ | x l Hx Hl [IHs IHp]]; simpl.
  - split; constructor.
  - split; [now apply insert_sorted | now apply insert_plain].
Qed.

Lemma firstn_keeps (n : nat) (l : list row) (x : row) :
  In x (List.firstn n l) -> In x l.
Proof.
  revert l. induction n as [ | n IH]; intros [ | y l]; simpl; try tauto.
  intros [-> | H]; auto.
Qed.

Lemma firstn_sorted (n : nat) (l : list row) :
  StronglySorted ordered l -> StronglySorted ordered (List.firstn n l).
Proof.
  revert l. induction n as [ | n IH]; intros l Hs; simpl.
  - constructor.
  - destruct Hs as [ | x l Hs Hall]; constructor; auto.
    apply Forall_forall. intros y Hy.
    apply (proj1 (Forall_forall _ _) Hall), (firstn_keeps _ _ _ Hy).
Qed.

(** The part of C10 that holds. Where no status is an inherited name
    the priority list has at most five entries, in non-increasing rank (high 3, medium 2, low 1,
    anything else 2), equal ranks in non-increasing number of deals,
    the number of deals of an entry being that of the deals the filter
    keeps for its client. *)
Theorem priority_list_sorted (clients deals : list row) :
  Forall (fun c => plain_priority (lookup c "status" ||| VStr "medium") = true)
    clients ->
  (List.length (priorityClients clients deals) <= 5)%nat /\
  StronglySorted ordered (priorityClients clients deals) /\
  Forall (fun e => exists c,
            In c clients /\ e = entry deals c /\
            deals_count e = Z.of_nat (List.length (clientDeals deals c)))
    (priorityClients clients deals).
Proof.
  intros Hc. unfold priorityClients. repeat split.
  - apply firstn_le_length.
  - apply firstn_sorted, Sorted_StronglySorted.
    + exact ordered_trans.
    + apply sort_sorted. apply Forall_forall. intros e He.
      apply in_map_iff in He. destruct He as (c & <- & Hin).
      rewrite entry_priority.
      exact (proj1 (Forall_forall _ _) Hc c Hin).
  - apply Forall_forall. intros e He. apply firstn_keeps in He.
    assert (Hin : forall l x, In x (sort l) -> In x l).
    { clear. induction l as [ | y l IH]; simpl; [auto | ].
      intros x Hx.
      assert (Hi : forall z m, In z (insert y m) -> z = y \/ In z m).
      { clear. intros z m. induction m as [ | w m IH]; simpl.
        - intuition.
        - destruct (before y w); simpl; intuition. }
      destruct (Hi _ _ Hx) as [-> | Hx']; auto. }
    apply Hin, in_map_iff in He. destruct He as (c & <- & Hc').
    exists c. repeat split; auto. apply entry_deals.
Qed.

(** At two clients of different ranks. *)
Lemma priority_list_sorted_witness :
  (List.length (priorityClients [low_client; List.hd [] legacy_rows] [])
   <= 5)%nat /\
  StronglySorted ordered
    (priorityClients [low_client; List.hd [] legacy_rows] []) /\
  Forall (fun e => exists c,
            In c [low_client; List.hd [] legacy_rows] /\
            e = entry [] c /\
            deals_count e = Z.of_nat (List.length (clientDeals [] c)))
    (priorityClients [low_client; List.hd [] legacy_rows] []).
Proof.
  apply (priority_list_sorted [low_client; List.hd [] legacy_rows] []).
  repeat constructor.
Defined.

(** C10 at a status that is an inherited name. The comparator reads
    the inherited member as the rank, the difference is not a number,
    and the two clients stay as they came: the one of rank 1 before the
    one whose unrecognized status should count as rank 2. *)
Theorem inherited_name_breaks_the_order :
  priorityClients [low_client; odd_client] []
  = [entry [] low_client; entry [] odd_client] /\
  compare (entry [] low_client) (entry [] odd_client) = None /\
  priority_rank (entry [] low_client) = 1%Z /\
  priority_rank (entry [] odd_client) = 2%Z /\
  ~ ordered (entry [] low_client) (entry [] odd_client).
Proof.
  repeat split; try reflexivity.
  intros [H | [H _]]; vm_compute in H; discriminate H.
Qed.

End Priority.

(* ===================================================================== *)
(** * The key *)
(* ===================================================================== *)

Section Key.

Import Executor Config.






End Key.

(* ===================================================================== *)
(** * The conduct of the handlers *)
(* ===================================================================== *)

Section Delivery.

Import Executor Conduct.

Ltac failed_leaf :=
  intros res Hres;
  first [ discriminate Hres
        | injection Hres as <-; intros Hs; discriminate Hs ].

Ltac delivered_leaf :=
  intros res _ _; tidy;
  match goal with
  | Hs : auth_session _ ?h0 = Fulfilled ?s,
    Hf : functions _ _ _ (VObj ?body) = Fulfilled ?a |- _ =>
      match h0 with
      | ?h ++ ?pre => exists pre, body, s, a
      | ?h => exists [], body, s, a; rewrite ?app_nil_r
      end;
      rewrite <- ?app_assoc in *; simpl app in *;
      repeat split; auto;
      try (now right; eexists);
      try congruence
  end.

Lemma email_delivers W a ce h :
  wp (executeEmailAutomation W a ce)
    (fun h' r => forall res, r = inr res -> success res = true ->
                 delivered W ce h h') h.
Proof.
  unfold executeEmailAutomation, emailAttempt, recipient, check_sent.
  repeat wp_step; try failed_leaf; unfold delivered.
  - delivered_leaf.
  - delivered_leaf.
Qed.

Lemma meeting_delivers W a ce h :
  wp (executeMeetingFollowUpAutomation W a ce)
    (fun h' r => forall res, r = inr res -> success res = true ->
                 delivered W ce h h') h.
Proof.
  unfold executeMeetingFollowUpAutomation, meetingAttempt, recipient,
    check_sent.
  repeat wp_step; try failed_leaf; unfold delivered.
  - delivered_leaf.
  - delivered_leaf.
Qed.

(** Whenever a mail handler of [src/lib] reports success, a mail went
    out: see [delivered]. *)
Theorem success_means_delivered W a ce h h' r :
  executeEmailAutomation W a ce h = (h', inr r) \/
  executeMeetingFollowUpAutomation W a ce h = (h', inr r) ->
  success r = true ->
  delivered W ce h h'.
Proof.
  intros [E | E] Hs.
  - exact (wp_run _ _ _ _ _ (email_delivers W a ce h) E r eq_refl Hs).
  - exact (wp_run _ _ _ _ _ (meeting_delivers W a ce h) E r eq_refl Hs).
Qed.

End Delivery.

Section DeliveryWitness.

Import Executor Conduct Scenario.

(** At the mail automation of the calm world, whose recipient is looked
    up. *)
Lemma success_means_delivered_witness :
  delivered calm VUndefined []
    (fst (executeEmailAutomation calm mail VUndefined [])).
Proof.
  apply (success_means_delivered calm mail VUndefined [] _
           (mk_result true (VStr "Email sent successfully")
              (VObj [("sent", VBool true); ("to", VStr "ann@example.com");
                     ("subject", VStr "Weekly note");
                     ("emailId", VUndefined)])));
    [ left; reflexivity | reflexivity ].
Defined.

End DeliveryWitness.

(* ===================================================================== *)
(** * What a handler turns down *)
(* ===================================================================== *)

Section Refusal.

Import Executor Conduct.









End Refusal.

Section RefusalWitness.

Import Executor Conduct Scenario.


End RefusalWitness.
